(** * MapView: the orchestrator of the tiled map quadtree

    A shallow embedding of [src/source/MapView.ts].  The view is a scene
    object that owns the root map node, the tile providers and the LOD
    control.  Its methods mutate the view and the objects it refers to, so
    the embedding threads an explicit store (the view's own fields plus a
    heap of objects addressed by reference) through a small state and
    exception monad.  The scene-graph primitives the methods call
    ([add], [remove], [traverse], [Vector3.copy]) belong to the host
    library; they are modelled in [Module Three] after that library's
    documented behaviour. *)

From Stdlib Require Import ZArith.
From stdpp Require Import base option list gmap pretty strings.

(** ** Values, classes and objects *)

(** Object identity. *)
Definition ref := positive.

(** The node variants that can sit at the root of a view.  [CustomMapNode]
    stands for user subclasses of [MapNode]. *)
Inductive NodeCtor :=
  | MapPlaneNode
  | MapSphereNode
  | MapHeightNode
  | MapHeightNodeShader
  | CustomMapNode (k : positive).

(** What [x.constructor] can evaluate to. *)
Inductive Class :=
  | NodeClass (c : NodeCtor)
  | Object3D
  | MapViewClass
  | Number
  | LODRaycast
  | OpenStreetMapsProvider
  | MeshBasicMaterial
  | BufferGeometry
  | OtherClass (k : positive).

(** Values that flow through the view: mode ids are primitive numbers,
    everything else is a reference, [null] or [undefined]. *)
Inductive Value :=
  | VUndefined
  | VNull
  | VNumber (n : Z)
  | VObject (r : ref).

#[global] Instance NodeCtor_eq_dec : EqDecision NodeCtor.
Proof. solve_decision. Defined.
#[global] Instance Class_eq_dec : EqDecision Class.
Proof. solve_decision. Defined.
#[global] Instance Value_eq_dec : EqDecision Value.
Proof. solve_decision. Defined.

Record Vector3 := mkVector3 { vx : Z; vy : Z; vz : Z }.

(** The [childrenCache] property of a node: absent on plain scene objects,
    [null] or an array of detached children on map nodes. *)
Inductive Cache :=
  | CacheUndefined
  | CacheNull
  | CacheArray (l : list ref).

(** Truthiness of [childrenCache]: an array, even an empty one, is truthy. *)
Definition truthy_cache (c : Cache) : bool :=
  match c with CacheArray _ => true | _ => false end.

(** A heap object, with the properties the view reads or writes. *)
Record Object := mkObject {
  class : Class;
  parent : Value;
  children : list ref;
  mapView : Value;
  childrenCache : Cache;
  numberData : option Z
}.

(** Scene objects carry the [isObject3D] flag. *)
Definition isObject3D (c : Class) : bool :=
  match c with NodeClass _ | Object3D | MapViewClass => true | _ => false end.

(** Map nodes define [loadTexture]; nothing else does. *)
Definition has_loadTexture (c : Class) : bool :=
  match c with NodeClass _ => true | _ => false end.

(** The static members of the node classes, which live outside this file:
    [BASE_GEOMETRY] and [BASE_SCALE] of every variant, and [MapNode.ROOT].
    A class that does not define [BASE_SCALE] has [None] there. *)
Record ClassTable := mkClassTable {
  BASE_GEOMETRY : NodeCtor -> Value;
  BASE_SCALE : NodeCtor -> option Vector3;
  ROOT : Value
}.

(** [C.BASE_GEOMETRY] and [C.BASE_SCALE] for an arbitrary constructor [C]:
    [undefined] unless [C] is a node class. *)
Definition static_BASE_GEOMETRY (t : ClassTable) (c : Class) : Value :=
  match c with NodeClass k => BASE_GEOMETRY t k | _ => VUndefined end.

Definition static_BASE_SCALE (t : ClassTable) (c : Class) : option Vector3 :=
  match c with NodeClass k => BASE_SCALE t k | _ => None end.

(** ** The store *)

(** The view's own fields: the four declared in the class and the ones it
    inherits from [Mesh] that its methods touch. *)
Record MapView := mkMapView {
  lod : Value;
  provider : Value;
  heightProvider : Value;
  root : Value;
  geometry : Value;
  material : Value;
  scale : Vector3;
  view_parent : Value;
  view_children : list ref
}.

(** Calls that leave the view. *)
Inductive Event :=
  | UpdateLOD (lodControl : ref) (view : ref) (camera renderer scene : Value)
  | LoadTexture (node : ref) (source : Value)
  | GetMetaData (target : ref)
  | ConsoleError
  | Draw.

#[global] Instance Event_eq_dec : EqDecision Event.
Proof. solve_decision. Defined.

Record State := mkState {
  this : ref;
  view : MapView;
  heap : gmap ref Object;
  log : list Event
}.

Inductive Exception :=
  | Error (message : string)
  | TypeError.

(** Result of running a method: normal return, a thrown exception (with the
    store as it was when thrown), or a traversal cut short. *)
Inductive Outcome (A : Type) :=
  | Return (a : A) (s : State)
  | Throw (e : Exception) (s : State)
  | OutOfFuel.
Arguments Return {A} a s.
Arguments Throw {A} e s.
Arguments OutOfFuel {A}.

Definition M (A : Type) : Type := State -> Outcome A.

#[global] Instance M_ret : MRet M := fun A a s => Return a s.
#[global] Instance M_bind : MBind M := fun A B f m s =>
  match m s with
  | Return a s' => f a s'
  | Throw e s' => Throw e s'
  | OutOfFuel => OutOfFuel
  end.

Definition throw {A} (e : Exception) : M A := fun s => Throw e s.
Definition get : M State := fun s => Return s s.
Definition modify (f : State -> State) : M unit := fun s => Return tt (f s).
Definition emit (e : Event) : M unit :=
  modify (fun s => mkState (this s) (view s) (heap s) (log s ++ [e])).

(** Store updates. *)
Definition set_view (f : MapView -> MapView) (s : State) : State :=
  mkState (this s) (f (view s)) (heap s) (log s).
Definition set_heap (f : gmap ref Object -> gmap ref Object) (s : State) : State :=
  mkState (this s) (view s) (f (heap s)) (log s).

Definition with_lod (v : Value) (w : MapView) : MapView :=
  mkMapView v (provider w) (heightProvider w) (root w) (geometry w)
            (material w) (scale w) (view_parent w) (view_children w).
Definition with_provider (v : Value) (w : MapView) : MapView :=
  mkMapView (lod w) v (heightProvider w) (root w) (geometry w)
            (material w) (scale w) (view_parent w) (view_children w).
Definition with_heightProvider (v : Value) (w : MapView) : MapView :=
  mkMapView (lod w) (provider w) v (root w) (geometry w)
            (material w) (scale w) (view_parent w) (view_children w).
Definition with_root (v : Value) (w : MapView) : MapView :=
  mkMapView (lod w) (provider w) (heightProvider w) v (geometry w)
            (material w) (scale w) (view_parent w) (view_children w).
Definition with_geometry (v : Value) (w : MapView) : MapView :=
  mkMapView (lod w) (provider w) (heightProvider w) (root w) v
            (material w) (scale w) (view_parent w) (view_children w).
Definition with_scale (v : Vector3) (w : MapView) : MapView :=
  mkMapView (lod w) (provider w) (heightProvider w) (root w) (geometry w)
            (material w) v (view_parent w) (view_children w).
Definition with_view_children (l : list ref) (w : MapView) : MapView :=
  mkMapView (lod w) (provider w) (heightProvider w) (root w) (geometry w)
            (material w) (scale w) (view_parent w) l.

Definition with_parent (v : Value) (o : Object) : Object :=
  mkObject (class o) v (children o) (mapView o) (childrenCache o) (numberData o).
Definition with_children (l : list ref) (o : Object) : Object :=
  mkObject (class o) (parent o) l (mapView o) (childrenCache o) (numberData o).
Definition with_mapView (v : Value) (o : Object) : Object :=
  mkObject (class o) (parent o) (children o) v (childrenCache o) (numberData o).
Definition with_childrenCache (c : Cache) (o : Object) : Object :=
  mkObject (class o) (parent o) (children o) (mapView o) c (numberData o).

(** [new C(...)]: a fresh reference, distinct from the view and from every
    object already in the heap. *)
Definition alloc (o : Object) : M Value := fun s =>
  let r := fresh ({[this s]} ∪ dom (heap s)) in
  Return (VObject r) (set_heap (insert r o) s).

Definition blank (c : Class) : Object :=
  mkObject c VUndefined [] VUndefined CacheUndefined None.

(** ** The host library's primitives *)

Module JsMap.
(** A [Map<number, V>]: entries in insertion order, one per key. *)
Definition t (V : Type) : Type := list (Z * V).

Fixpoint set {V} (k : Z) (v : V) (m : t V) : t V :=
  match m with
  | [] => [(k, v)]
  | (k', v') :: m' =>
      if decide (k = k') then (k, v) :: m' else (k', v') :: set k v m'
  end.

(** [new Map(entries)] sets the entries one after the other. *)
Definition new {V} (entries : list (Z * V)) : t V :=
  foldl (fun m e => set (fst e) (snd e) m) [] entries.

Fixpoint get {V} (m : t V) (k : Z) : option V :=
  match m with
  | [] => None
  | (k', v) :: m' => if decide (k = k') then Some v else get m' k
  end.

Definition has {V} (m : t V) (k : Z) : bool :=
  match get m k with Some _ => true | None => false end.

Definition entries {V} (m : t V) : list (Z * V) := m.
Definition size {V} (m : t V) : nat := length m.
End JsMap.

Module Three.

(** [p.children] and [p.parent], where [p] is the view or a heap object. *)
Definition children_of (s : State) (p : ref) : list ref :=
  if decide (p = this s) then view_children (view s)
  else match heap s !! p with Some o => children o | None => [] end.

Definition parent_of (s : State) (p : ref) : Value :=
  if decide (p = this s) then view_parent (view s)
  else match heap s !! p with Some o => parent o | None => VUndefined end.

Definition set_children_of (p : ref) (l : list ref) (s : State) : State :=
  if decide (p = this s) then set_view (with_view_children l) s
  else set_heap (alter (with_children l) p) s.

Definition set_parent_of (r : ref) (v : Value) (s : State) : State :=
  if decide (r = this s) then
    set_view (fun w => mkMapView (lod w) (provider w) (heightProvider w)
                         (root w) (geometry w) (material w) (scale w) v
                         (view_children w)) s
  else set_heap (alter (with_parent v) r) s.

(** [children.splice(children.indexOf(r), 1)] when [r] occurs. *)
Fixpoint splice_first (r : ref) (l : list ref) : list ref :=
  match l with
  | [] => []
  | x :: l' => if decide (x = r) then l' else x :: splice_first r l'
  end.

(** [p.remove(object)]: a child is unlinked, anything else is ignored. *)
Definition remove_from (p : ref) (object : Value) (s : State) : State :=
  match object with
  | VObject r =>
      if decide (r ∈ children_of s p) then
        let s1 := set_parent_of r VNull s in
        set_children_of p (splice_first r (children_of s1 p)) s1
      else s
  | _ => s
  end.

(** [this.remove(object)] *)
Definition remove (object : Value) : M unit :=
  modify (fun s => remove_from (this s) object s).

(** [this.add(object)]: refuses the view itself and whatever is not a
    scene object; otherwise unlinks the object from its previous parent
    and appends it to the view's children. *)
Definition add (object : Value) : M unit :=
  s ← get;
  match object with
  | VObject r =>
      if decide (r = this s) then emit ConsoleError
      else match heap s !! r with
           | Some o =>
               if isObject3D (class o) then
                 match parent o with
                 | VNull => mret tt
                 | VObject p => modify (remove_from p object)
                 | _ => throw TypeError
                 end ;;
                 modify (fun s => set_parent_of r (VObject (this s)) s) ;;
                 modify (fun s =>
                   set_view (with_view_children (view_children (view s) ++ [r])) s)
               else emit ConsoleError
           | None => emit ConsoleError
           end
  | _ => emit ConsoleError
  end.

Fixpoint for_each {A} (f : A -> M unit) (l : list A) : M unit :=
  match l with
  | [] => mret tt
  | x :: l' => f x ;; for_each f l'
  end.

(** [r.traverse(callback)]: the callback on [r], then on every
    descendant, depth first.  The recursion follows the heap, so it is
    bounded by [fuel]. *)
Fixpoint traverse_from (fuel : nat) (callback : ref -> M unit) (r : ref) : M unit :=
  match fuel with
  | O => fun _ => OutOfFuel
  | S fuel' =>
      callback r ;;
      s ← get;
      for_each (traverse_from fuel' callback) (children_of s r)
  end.

(** [this.traverse(callback)] *)
Definition traverse (fuel : nat) (callback : ref -> M unit) : M unit :=
  s ← get; traverse_from fuel callback (this s).

(** [this.scale.copy(v)] reads [v.x], [v.y] and [v.z]. *)
Definition scale_copy (v : option Vector3) : M unit :=
  match v with
  | Some v => modify (set_view (with_scale (mkVector3 (vx v) (vy v) (vz v))))
  | None => throw TypeError
  end.

(** [super(geometry, material)] of [Mesh]: an unlinked scene object with
    unit scale; an [undefined] geometry defaults to a new buffer. *)
Definition Mesh_constructor (geometry0 material0 : Value) : M unit :=
  g ← (if decide (geometry0 = VUndefined) then alloc (blank BufferGeometry)
       else mret geometry0);
  modify (set_view (fun _ =>
    mkMapView VUndefined VUndefined VUndefined VUndefined g material0
              (mkVector3 1 1 1) VNull [])).

End Three.

(** ** Property access on values *)

(** [v.constructor] *)
Definition constructor_of (v : Value) : M Class := fun s =>
  match v with
  | VNumber _ => Return Number s
  | VObject r =>
      if decide (r = this s) then Return MapViewClass s
      else match heap s !! r with
           | Some o => Return (class o) s
           | None => Throw TypeError s
           end
  | _ => Throw TypeError s
  end.

(** [ToNumber] on the arguments that reach it. *)
Definition to_number (v : Value) : option Z :=
  match v with
  | VNull => Some 0%Z
  | VNumber n => Some n
  | _ => None
  end.

(** [new C(args)].  For [Number] the result wraps [ToNumber] of the first
    argument.  The node constructors are outside this file; their objects
    start unlinked, with the view passed as fourth argument. *)
Definition new_ (c : Class) (args : list Value) : M Value :=
  alloc (mkObject c
           (if isObject3D c then VNull else VUndefined)
           []
           (if has_loadTexture c then default VUndefined (args !! 3%nat) else VUndefined)
           (if has_loadTexture c then CacheNull else CacheUndefined)
           (if decide (c = Number) then to_number (default (VNumber 0) (head args)) else None)).

(** [v.mapView = w] *)
Definition set_mapView (v w : Value) : M unit := fun s =>
  match v with
  | VObject r =>
      if decide (r = this s) then Return tt s
      else Return tt (set_heap (alter (with_mapView w) r) s)
  | _ => Throw TypeError s
  end.

(** [r.childrenCache] and [r.loadTexture !== undefined] for a traversed
    object: the view itself defines neither. *)
Definition childrenCache_of (s : State) (r : ref) : Cache :=
  if decide (r = this s) then CacheUndefined
  else match heap s !! r with Some o => childrenCache o | None => CacheUndefined end.

Definition defines_loadTexture (s : State) (r : ref) : bool :=
  if decide (r = this s) then false
  else match heap s !! r with Some o => has_loadTexture (class o) | None => false end.

(** Modelled from the spec: [MapNode.loadTexture], which is outside this
    file.  A node re-requests its tile content from the current provider of
    the view; the request is asynchronous, so the call itself changes
    neither the view nor the scene graph.  What the provider answers, and
    when, is not part of this development. *)
Definition loadTexture (r : ref) : M unit :=
  s ← get; emit (LoadTexture r (provider (view s))).

(** ** The view *)

(** Planar map projection. *)
Definition PLANAR : Z := 200.
(** Spherical map projection. *)
Definition SPHERICAL : Z := 201.
(** Planar map projection with height deformation. *)
Definition HEIGHT : Z := 202.
(** Planar map projection with height deformation computed on the GPU. *)
Definition HEIGHT_SHADER : Z := 203.

(** Map of the map node types available. *)
Definition mapModes : JsMap.t NodeCtor :=
  JsMap.new [ (PLANAR, MapPlaneNode);
              (SPHERICAL, MapSphereNode);
              (HEIGHT, MapHeightNode);
              (HEIGHT_SHADER, MapHeightNodeShader) ].

(** ['Map mode ' + root + ' does is not registered.'] *)
Definition not_registered (mode : Z) : string :=
  "Map mode " +:+ pretty mode +:+ " does is not registered.".

Section Methods.

(** The statics of the node classes, and what the LOD control's
    [updateLOD(view, camera, renderer, scene)] does to the scene objects
    (it subdivides and simplifies nodes); both are defined outside this
    file. *)
Variable statics : ClassTable.
Variable updateLOD :
  ref -> ref -> Value -> Value -> Value ->
  gmap ref Object -> gmap ref Object.

(** Set the root of the map view.  The first [match] is the test
    [typeof root === 'number']. *)
Definition setRoot (root0 : Value) : M unit :=
  root1 ← match root0 with
          | VNumber n =>
              if negb (JsMap.has mapModes n) then
                throw (Error (not_registered n))
              else
                let rootConstructor := JsMap.get mapModes n in
                s ← get;
                c ← constructor_of root0;
                new_ c [VNull; VNull; VNull; VObject (this s); ROOT statics;
                        VNumber 0; VNumber 0; VNumber 0]
          | _ => mret root0
          end;
  s ← get;
  (if decide (root (view s) ≠ VNull) then
     Three.remove (root (view s)) ;;
     modify (set_view (with_root VNull))
   else mret tt) ;;
  modify (set_view (with_root root1)) ;;
  s ← get;
  c ← constructor_of (root (view s));
  modify (set_view (with_geometry (static_BASE_GEOMETRY statics c))) ;;
  s ← get;
  c ← constructor_of (root (view s));
  Three.scale_copy (static_BASE_SCALE statics c) ;;
  s ← get;
  set_mapView (root (view s)) (VObject (this s)) ;;
  s ← get;
  Three.add (root (view s)).

(** The function handed to [traverse] by [clear]. *)
Definition clear_callback (r : ref) : M unit :=
  s ← get;
  (if truthy_cache (childrenCache_of s r) then
     modify (set_heap (alter (with_childrenCache CacheNull) r))
   else mret tt) ;;
  s ← get;
  (if defines_loadTexture s r then loadTexture r else mret tt).

(** Clears all tiles from memory and reloads data. *)
Definition clear (fuel : nat) : M Value :=
  Three.traverse fuel clear_callback ;;
  s ← get;
  mret (VObject (this s)).

(** Change the map provider of this map view. *)
Definition setProvider (fuel : nat) (provider0 : Value) : M unit :=
  s ← get;
  if decide (provider0 ≠ provider (view s)) then
    modify (set_view (with_provider provider0)) ;;
    clear fuel ;;
    mret tt
  else mret tt.

(** Change the map height provider of this map view. *)
Definition setHeightProvider (fuel : nat) (heightProvider0 : Value) : M unit :=
  s ← get;
  if decide (heightProvider0 ≠ heightProvider (view s)) then
    modify (set_view (with_heightProvider heightProvider0)) ;;
    clear fuel ;;
    mret tt
  else mret tt.

(** Constructor for the map view objects. *)
Definition constructor (root0 provider0 heightProvider0 : Value) : M unit :=
  m ← alloc (blank MeshBasicMaterial);
  Three.Mesh_constructor VUndefined m ;;
  l ← new_ LODRaycast [];
  modify (set_view (with_lod l)) ;;
  p ← (if decide (provider0 ≠ VUndefined) then mret provider0
       else new_ OpenStreetMapsProvider []);
  modify (set_view (with_provider p)) ;;
  modify (set_view (with_heightProvider
                      (if decide (heightProvider0 ≠ VUndefined)
                       then heightProvider0 else VNull))) ;;
  modify (set_view (with_root
                      (if decide (root0 ≠ VUndefined)
                       then root0 else VNumber PLANAR))) ;;
  setRoot root0.

(** Called every time before render: hands the view and the camera to
    the LOD control. *)
Definition onBeforeRender
    (renderer scene camera geometry0 material0 group : Value) : M unit :=
  s ← get;
  match lod (view s) with
  | VObject l =>
      emit (UpdateLOD l (this s) camera renderer scene) ;;
      modify (fun s =>
        set_heap (updateLOD l (this s) camera renderer scene) s)
  | _ => throw TypeError
  end.

(** Get map meta data from server if supported. *)
Definition getMetaData : M unit :=
  s ← get;
  match provider (view s) with
  | VObject p => emit (GetMetaData p)
  | _ => throw TypeError
  end.

(** The view's override of [Mesh.raycast]: the answer, and the contents
    of the [intersects] array afterwards. *)
Definition raycast (raycaster : Value) (intersects : list Value)
  : M (bool * list Value) :=
  mret (false, intersects).

End Methods.

(** ** Reading the scene graph *)

(** The objects [traverse] walks through from [r], in visiting order. *)
Fixpoint preorder (fuel : nat) (s : State) (r : ref) : list ref :=
  match fuel with
  | O => []
  | S fuel' => r :: flat_map (preorder fuel' s) (Three.children_of s r)
  end.

(** The resident nodes of the view: the map nodes linked below it. *)
Definition resident_nodes (fuel : nat) (s : State) : list ref :=
  filter (fun r => defines_loadTexture s r = true) (preorder fuel s (this s)).

(** The scene graph below [r] is no deeper than [fuel] levels. *)
Fixpoint depth_ok (fuel : nat) (s : State) (r : ref) : bool :=
  match fuel with
  | O => false
  | S fuel' => forallb (depth_ok fuel' s) (Three.children_of s r)
  end.

(** [reach s p r]: [r] is [p] or one of its descendants. *)
Inductive reach (s : State) (p : ref) : ref -> Prop :=
  | reach_refl : reach s p p
  | reach_child q r :
      reach s p q -> r ∈ Three.children_of s q -> reach s p r.

Definition in_tree (s : State) (r : ref) : Prop := reach s (this s) r.

(** ** The rendering host *)

Module Host.
(** One rendered frame of the view, as the renderer runs it: the
    [onBeforeRender] hook, then the draw call. *)
Definition renderFrame updateLOD (renderer scene camera : Value) : M unit :=
  onBeforeRender updateLOD renderer scene camera
                 VUndefined VUndefined VUndefined ;;
  emit Draw.

Fixpoint renderFrames updateLOD (renderer scene : Value) (cameras : list Value)
  : M unit :=
  match cameras with
  | [] => mret tt
  | camera :: rest =>
      renderFrame updateLOD renderer scene camera ;;
      renderFrames updateLOD renderer scene rest
  end.
End Host.

Definition is_UpdateLOD (e : Event) : bool :=
  match e with UpdateLOD _ _ _ _ _ => true | _ => false end.

(** The store an outcome ends in. *)
Definition final {A} (o : Outcome A) : option State :=
  match o with
  | Return _ s | Throw _ s => Some s
  | OutOfFuel => None
  end.

(** ** A sample scene *)

Module Sample.

#[local] Open Scope positive_scope.

(** Statics of the four registered variants; custom classes define none. *)
Definition statics : ClassTable :=
  mkClassTable
    (fun c => match c with
              | MapPlaneNode | MapHeightNode | MapHeightNodeShader => VObject 90
              | MapSphereNode => VObject 91
              | CustomMapNode _ => VNull
              end)
    (fun c => match c with
              | MapPlaneNode | MapHeightNode | MapHeightNodeShader =>
                  Some (mkVector3 40075016 1 40075016)
              | MapSphereNode => Some (mkVector3 1 1 1)
              | CustomMapNode _ => None
              end)
    (VNumber (-1)).

(** An LOD control that leaves the scene as it is. *)
Definition idleLOD (l v : ref) (camera renderer scene : Value)
    (h : gmap ref Object) : gmap ref Object := h.

Definition node (p : Value) (l : list ref) (c : Cache) : Object :=
  mkObject (NodeClass MapPlaneNode) p l (VObject 1) c None.

(** A store that holds nothing but an unlinked planar node, number 10. *)
Definition empty_store : State :=
  mkState 1
    (mkMapView VUndefined VUndefined VUndefined VUndefined VUndefined
               VUndefined (mkVector3 0 0 0) VUndefined [])
    (<[10%positive := node VNull [] CacheNull]> ∅) [].

(** A view with twelve resident nodes: the root 10, its children 11 to 14,
    the children 15 to 18 of node 11 and the children 19 to 21 of node 12.
    Node 13 keeps the detached nodes 30 and 31 in its children cache.
    Object 3 is the provider in use, object 6 another provider. *)
Definition heap12 : gmap ref Object :=
  list_to_map
    [ (2%positive, blank LODRaycast);
      (3%positive, blank OpenStreetMapsProvider);
      (4%positive, blank MeshBasicMaterial);
      (6%positive, blank (OtherClass 1));
      (10%positive, node (VObject 1) [11; 12; 13; 14]%positive CacheNull);
      (11%positive, node (VObject 10) [15; 16; 17; 18]%positive CacheNull);
      (12%positive, node (VObject 10) [19; 20; 21]%positive CacheNull);
      (13%positive, node (VObject 10) [] (CacheArray [30; 31]%positive));
      (14%positive, node (VObject 10) [] CacheNull);
      (15%positive, node (VObject 11) [] CacheNull);
      (16%positive, node (VObject 11) [] CacheNull);
      (17%positive, node (VObject 11) [] CacheNull);
      (18%positive, node (VObject 11) [] CacheNull);
      (19%positive, node (VObject 12) [] CacheNull);
      (20%positive, node (VObject 12) [] CacheNull);
      (21%positive, node (VObject 12) [] CacheNull);
      (30%positive, node VNull [] CacheNull);
      (31%positive, node VNull [] CacheNull) ].

Definition view12 : MapView :=
  mkMapView (VObject 2) (VObject 3) VNull (VObject 10) (VObject 90)
            (VObject 4) (mkVector3 40075016 1 40075016) VNull [10%positive].

Definition store12 : State := mkState 1 view12 heap12 [].

(** The store after [new MapView(node10, undefined, undefined)]. *)
Definition constructed_store : State :=
  match constructor statics (VObject 10) VUndefined VUndefined empty_store with
  | Return _ s' => s'
  | _ => empty_store
  end.

End Sample.

(** ** Relations between stores *)

(** [stable R m]: whenever [m] ends, by returning or by throwing, the
    stores before and after are related by [R]. *)
Definition stable (R : relation State) {A} (m : M A) : Prop :=
  forall s s', final (m s) = Some s' -> R s s'.

(** [quiet s s']: between [s] and [s'] the LOD control was not called. *)
Definition quiet (s s' : State) : Prop :=
  exists evs, log s' = log s ++ evs /\ Forall (fun e => is_UpdateLOD e = false) evs.

(** [keeps s s']: the identity of the view, its LOD control, its providers
    and its material are the same, and every object is still of the class
    it was constructed with. *)
Record keeps (s s' : State) : Prop := mkKeeps {
  keeps_this : this s' = this s;
  keeps_lod : lod (view s') = lod (view s);
  keeps_provider : provider (view s') = provider (view s);
  keeps_heightProvider : heightProvider (view s') = heightProvider (view s);
  keeps_material : material (view s') = material (view s);
  keeps_class : forall r c,
    class <$> heap s !! r = Some c -> class <$> heap s' !! r = Some c
}.

(** What the constructor has set up when it reaches its last statement,
    the call of [setRoot]. *)
Record constructed (root0 provider0 heightProvider0 : Value) (s s1 : State)
  : Prop := mkConstructed {
  constructed_this : this s1 = this s;
  constructed_lod : exists l,
    lod (view s1) = VObject l /\ heap s !! l = None /\
    class <$> heap s1 !! l = Some LODRaycast;
  constructed_default_provider : provider0 = VUndefined -> exists p,
    provider (view s1) = VObject p /\ heap s !! p = None /\
    class <$> heap s1 !! p = Some OpenStreetMapsProvider;
  constructed_provider : provider0 <> VUndefined ->
    provider (view s1) = provider0;
  constructed_heightProvider :
    heightProvider (view s1) =
      if decide (heightProvider0 = VUndefined) then VNull else heightProvider0;
  constructed_root :
    root (view s1) =
      if decide (root0 = VUndefined) then VNumber PLANAR else root0;
  constructed_children : view_children (view s1) = [];
  constructed_parent : view_parent (view s1) = VNull;
  constructed_heap : forall r o, heap s !! r = Some o -> heap s1 !! r = Some o;
  constructed_log : log s1 = log s
}.

(** [dropped o o']: [o'] is [o], possibly with its children cache, if it
    had one, replaced by [null]. *)
Definition dropped (o o' : Object) : Prop :=
  o' = o \/
  (truthy_cache (childrenCache o) = true /\ o' = with_childrenCache CacheNull o).

(** [reloads s s']: the view is untouched, objects differ at most by a
    dropped children cache, and the only calls made ask map nodes to load
    their texture from the view's provider. *)
Record reloads (s s' : State) : Prop := mkReloads {
  reloads_this : this s' = this s;
  reloads_view : view s' = view s;
  reloads_heap : forall r, option_Forall2 dropped (heap s !! r) (heap s' !! r);
  reloads_log : exists evs,
    log s' = log s ++ evs /\
    Forall (fun e => exists r, e = LoadTexture r (provider (view s)) /\
                               defines_loadTexture s r = true) evs
}.

(** [visited s s' d]: between [s] and [s'] the object [d] went through the
    callback of [clear]: it holds no children cache any more and, if it is
    a map node, it was asked to load its texture from the provider. *)
Definition visited (s s' : State) (d : ref) : Prop :=
  truthy_cache (childrenCache_of s' d) = false /\
  (defines_loadTexture s d = true -> exists evs,
     log s' = log s ++ evs /\ LoadTexture d (provider (view s)) ∈ evs).

(** The store once [setRoot] has unlinked the previous root. *)
Definition unlinked (s : State) : State :=
  if decide (root (view s) = VNull) then s
  else set_view (with_root VNull)
         (Three.remove_from (this s) (root (view s)) s).

(** ** The effect of [clear], in closed form *)

(** An object once the callback of [clear] has gone over it. *)
Definition drop_cache (o : Object) : Object :=
  if truthy_cache (childrenCache o) then with_childrenCache CacheNull o else o.

(** The store after the callback of [clear] has run on [r]. *)
Definition visit (r : ref) (s : State) : State :=
  let sa := if truthy_cache (childrenCache_of s r)
            then set_heap (alter (with_childrenCache CacheNull) r) s
            else s in
  if defines_loadTexture sa r
  then mkState (this sa) (view sa) (heap sa)
               (log sa ++ [LoadTexture r (provider (view sa))])
  else sa.

Definition visit_all (l : list ref) (s : State) : State :=
  foldl (fun s r => visit r s) s l.

(** One [loadTexture] request to [p] for each node of [l], in order. *)
Definition texture_requests (p : Value) (l : list ref) : list Event :=
  map (fun r => LoadTexture r p) l.

(** ** The effect of [add], in closed form *)

(** The store once [add] has linked the scene object [r] under the view. *)
Definition attach (r : ref) (s : State) : State :=
  set_view (with_view_children (view_children (view s) ++ [r]))
    (set_heap (alter (with_parent (VObject (this s))) r) s).

(** * Properties *)

(** ** Reasoning about runs *)

Lemma stable_bind (R : relation State) `{!PreOrder R} {A B}
    (m : M A) (f : A -> M B) :
  stable R m -> (forall a, stable R (f a)) -> stable R (m ≫= f).
Proof.
  intros Hm Hf s s'. unfold mbind, M_bind.
  destruct (m s) as [a s1|e s1|] eqn:E; simpl; intros H.
  - etrans; [apply (Hm s); by rewrite E|]. by apply (Hf a).
  - apply (Hm s). by rewrite E.
  - done.
Qed.

Lemma stable_ret (R : relation State) `{!Reflexive R} {A} (a : A) :
  stable R (mret a : M A).
Proof. intros s s' [= <-]. reflexivity. Qed.

Lemma stable_throw (R : relation State) `{!Reflexive R} {A} e :
  stable R (throw e : M A).
Proof. intros s s' [= <-]. reflexivity. Qed.

Lemma stable_get (R : relation State) `{!Reflexive R} : stable R get.
Proof. intros s s' [= <-]. reflexivity. Qed.

Lemma stable_modify (R : relation State) f :
  (forall s, R s (f s)) -> stable R (modify f).
Proof. intros H s s' [= <-]. apply H. Qed.

Lemma stable_for_each (R : relation State) `{!PreOrder R} {A}
    (f : A -> M unit) (l : list A) :
  (forall a, stable R (f a)) -> stable R (Three.for_each f l).
Proof.
  intros Hf. induction l as [|a l IH]; simpl.
  - by apply stable_ret, _.
  - apply stable_bind; [done|apply Hf|done].
Qed.

Lemma stable_traverse_from (R : relation State) `{!PreOrder R}
    (cb : ref -> M unit) fuel r :
  (forall r, stable R (cb r)) -> stable R (Three.traverse_from fuel cb r).
Proof.
  intros Hcb. revert r. induction fuel as [|fuel IH]; intros r; simpl.
  - by intros s s'.
  - apply stable_bind; [done|apply Hcb|intros _].
    apply stable_bind; [done|by apply stable_get, _|intros s].
    by apply stable_for_each.
Qed.

(** ** What the methods leave alone *)

#[global] Instance quiet_preorder : PreOrder quiet.
Proof.
  split.
  - intros s. exists []. by rewrite app_nil_r.
  - intros s1 s2 s3 (e1 & H1 & F1) (e2 & H2 & F2). exists (e1 ++ e2).
    split; [by rewrite H2, H1, app_assoc|by apply Forall_app].
Qed.

#[global] Instance keeps_preorder : PreOrder keeps.
Proof.
  split.
  - intros s. by constructor.
  - intros s1 s2 s3 [] []. constructor; try congruence. auto.
Qed.

Lemma field_alter {X} (g : Object -> X) (f : Object -> Object) r
    (h : gmap ref Object) r' :
  (forall o, g (f o) = g o) ->
  g <$> alter f r h !! r' = g <$> h !! r'.
Proof.
  intros Hf. destruct (decide (r = r')) as [->|Hne].
  - rewrite lookup_alter_eq. destruct (h !! r'); simpl; [by rewrite Hf|done].
  - by rewrite lookup_alter_ne.
Qed.

Lemma class_alter (f : Object -> Object) r (h : gmap ref Object) r' :
  (forall o, class (f o) = class o) ->
  class <$> alter f r h !! r' = class <$> h !! r'.
Proof. apply field_alter. Qed.

Lemma keeps_set_parent_of r v s : keeps s (Three.set_parent_of r v s).
Proof.
  unfold Three.set_parent_of. case_decide; constructor; simpl; try done.
  intros r' c. by rewrite class_alter.
Qed.

Lemma keeps_set_children_of p l s : keeps s (Three.set_children_of p l s).
Proof.
  unfold Three.set_children_of. case_decide; constructor; simpl; try done.
  intros r' c. by rewrite class_alter.
Qed.

Lemma keeps_remove_from p object s : keeps s (Three.remove_from p object s).
Proof.
  unfold Three.remove_from. destruct object; try reflexivity.
  case_decide; [|reflexivity].
  etrans; [apply keeps_set_parent_of|apply keeps_set_children_of].
Qed.

Lemma quiet_same_log s s' : log s' = log s -> quiet s s'.
Proof. intros H. exists []. by rewrite app_nil_r. Qed.

Lemma quiet_set_parent_of r v s : quiet s (Three.set_parent_of r v s).
Proof. apply quiet_same_log. unfold Three.set_parent_of. by case_decide. Qed.

Lemma quiet_set_children_of p l s : quiet s (Three.set_children_of p l s).
Proof. apply quiet_same_log. unfold Three.set_children_of. by case_decide. Qed.

Lemma quiet_remove_from p object s : quiet s (Three.remove_from p object s).
Proof.
  unfold Three.remove_from. destruct object; try reflexivity.
  case_decide; [|reflexivity].
  etrans; [apply quiet_set_parent_of|apply quiet_set_children_of].
Qed.

Lemma stable_emit_keeps e : stable keeps (emit e).
Proof. apply stable_modify. intros s. by constructor. Qed.

Lemma stable_emit_quiet e : is_UpdateLOD e = false -> stable quiet (emit e).
Proof.
  intros He. apply stable_modify. intros s. exists [e]. split; [done|].
  by repeat constructor.
Qed.

Lemma stable_alloc_keeps o : stable keeps (alloc o).
Proof.
  intros s s' [= <-]. constructor; simpl; try done.
  intros r c Hr. rewrite lookup_insert_ne; [done|].
  intros <-. pose proof (is_fresh ({[this s]} ∪ dom (heap s))) as Hf.
  apply Hf, elem_of_union_r, elem_of_dom.
  destruct (heap s !! _); [done|discriminate].
Qed.

Lemma stable_alloc_quiet o : stable quiet (alloc o).
Proof. intros s s' [= <-]. by apply quiet_same_log. Qed.

Lemma stable_set_mapView_keeps v w : stable keeps (set_mapView v w).
Proof.
  intros s s'. unfold set_mapView. destruct v; simpl; try (intros [= <-]; reflexivity).
  case_decide; simpl; intros [= <-]; [reflexivity|].
  constructor; simpl; try done. intros r' c. by rewrite class_alter.
Qed.

Lemma stable_set_mapView_quiet v w : stable quiet (set_mapView v w).
Proof.
  intros s s'. unfold set_mapView. destruct v; simpl; try (intros [= <-]; reflexivity).
  case_decide; simpl; intros [= <-]; by apply quiet_same_log.
Qed.

Lemma stable_constructor_of (R : relation State) `{!Reflexive R} v :
  stable R (constructor_of v).
Proof.
  intros s s'. unfold constructor_of.
  repeat case_match; simpl; intros [= <-]; reflexivity.
Qed.

Create HintDb stable.

#[global] Hint Resolve stable_emit_keeps stable_alloc_keeps stable_alloc_quiet
  stable_set_mapView_keeps stable_set_mapView_quiet
  keeps_remove_from quiet_remove_from keeps_set_parent_of quiet_set_parent_of
  quiet_same_log : stable.

(** Splits a method into its statements and closes the elementary ones. *)
Ltac stable_steps :=
  repeat first
    [ assumption
    | apply stable_bind; [apply _| |intros ?]
    | apply stable_ret; apply _
    | apply stable_throw; apply _
    | apply stable_get; apply _
    | apply stable_constructor_of; apply _
    | apply stable_emit_quiet; reflexivity
    | progress eauto with stable
    | apply stable_modify; intros ?
    | case_match ].

Lemma stable_remove_keeps v : stable keeps (Three.remove v).
Proof. apply stable_modify. intros s. apply keeps_remove_from. Qed.

Lemma stable_remove_quiet v : stable quiet (Three.remove v).
Proof. apply stable_modify. intros s. apply quiet_remove_from. Qed.

Lemma stable_add_keeps v : stable keeps (Three.add v).
Proof. unfold Three.add. stable_steps; by constructor. Qed.

Lemma stable_add_quiet v : stable quiet (Three.add v).
Proof. unfold Three.add. stable_steps. Qed.

Lemma stable_scale_copy_keeps v : stable keeps (Three.scale_copy v).
Proof. unfold Three.scale_copy. stable_steps. by constructor. Qed.

Lemma stable_scale_copy_quiet v : stable quiet (Three.scale_copy v).
Proof. unfold Three.scale_copy. stable_steps. Qed.

#[global] Hint Resolve stable_remove_keeps stable_remove_quiet stable_add_keeps
  stable_add_quiet stable_scale_copy_keeps stable_scale_copy_quiet : stable.

Lemma stable_new_keeps c args : stable keeps (new_ c args).
Proof. apply stable_alloc_keeps. Qed.

Lemma stable_new_quiet c args : stable quiet (new_ c args).
Proof. apply stable_alloc_quiet. Qed.

#[global] Hint Resolve stable_new_keeps stable_new_quiet : stable.

Lemma stable_setRoot_keeps statics v : stable keeps (setRoot statics v).
Proof. unfold setRoot. stable_steps; by constructor. Qed.

Lemma stable_setRoot_quiet statics v : stable quiet (setRoot statics v).
Proof. unfold setRoot. stable_steps. Qed.

(** ** Running a method step by step *)

Lemma run_bind_Return {A B} (m : M A) (f : A -> M B) s a s1 :
  m s = Return a s1 -> (m ≫= f) s = f a s1.
Proof. unfold mbind, M_bind. by intros ->. Qed.

Lemma run_bind_Throw {A B} (m : M A) (f : A -> M B) s e s1 :
  m s = Throw e s1 -> (m ≫= f) s = Throw e s1.
Proof. unfold mbind, M_bind. by intros ->. Qed.

Lemma alloc_fresh o s :
  exists r, alloc o s = Return (VObject r) (set_heap (insert r o) s)
            /\ r <> this s /\ heap s !! r = None.
Proof.
  exists (fresh ({[this s]} ∪ dom (heap s))). split; [done|].
  pose proof (is_fresh ({[this s]} ∪ dom (heap s))) as Hf.
  split.
  - intros E. apply Hf. apply elem_of_union_l, elem_of_singleton. exact E.
  - apply not_elem_of_dom. intros Hd. apply Hf. by apply elem_of_union_r.
Qed.

Lemma run_bind_assoc {A B C} (m : M A) (f : A -> M B) (g : B -> M C) s :
  ((m ≫= f) ≫= g) s = (m ≫= fun a => f a ≫= g) s.
Proof. unfold mbind, M_bind. by destruct (m s). Qed.

Lemma constructor_of_object r s c :
  r <> this s -> class <$> heap s !! r = Some c ->
  constructor_of (VObject r) s = Return c s.
Proof.
  intros Hne Hc. unfold constructor_of. rewrite decide_False by done.
  destruct (heap s !! r); simplify_eq/=. done.
Qed.

(** ** Construction *)

Lemma constructor_prefix statics root0 provider0 heightProvider0 s :
  exists s1,
    constructor statics root0 provider0 heightProvider0 s
    = setRoot statics root0 s1
    /\ constructed root0 provider0 heightProvider0 s s1.
Proof.
  unfold constructor.
  destruct (alloc_fresh (blank MeshBasicMaterial) s) as (rm & Em & _ & Hm).
  erewrite run_bind_Return by exact Em. clear Em.
  set (sm := set_heap (insert rm (blank MeshBasicMaterial)) s).
  unfold Three.Mesh_constructor.
  rewrite (decide_True (P := VUndefined = VUndefined)) by done.
  rewrite run_bind_assoc.
  destruct (alloc_fresh (blank BufferGeometry) sm) as (rg & Eg & _ & Hg).
  erewrite run_bind_Return by exact Eg. clear Eg.
  erewrite run_bind_Return by reflexivity.
  match goal with |- context [ (_ ≫= _) ?s0 ] => set (sg := s0) end.
  destruct (alloc_fresh (blank LODRaycast) sg) as (rl & El & _ & Hl).
  erewrite run_bind_Return by exact El. clear El.
  erewrite run_bind_Return by reflexivity.
  match goal with |- context [ (_ ≫= _) ?s0 ] => set (sl := s0) end.
  assert (Hnl : heap s !! rl = None /\ heap s !! rg = None).
  { subst sg sm. simpl in Hl, Hg.
    rewrite !lookup_insert_None in Hl. rewrite lookup_insert_None in Hg. tauto. }
  destruct Hnl as [Hnl Hng].
  assert (Hsub : forall r o, heap s !! r = Some o -> heap sl !! r = Some o).
  { intros r o Hr. subst sl sg sm. simpl.
    rewrite !lookup_insert_ne; [done|intros <-; congruence..]. }
  assert (Hcl : class <$> heap sl !! rl = Some LODRaycast).
  { subst sl. simpl. by rewrite lookup_insert_eq. }
  destruct (decide (provider0 = VUndefined)) as [->|Hp].
  - rewrite (decide_False (P := VUndefined ≠ VUndefined)) by (intros H; by apply H).
    destruct (alloc_fresh (blank OpenStreetMapsProvider) sl) as (rp & Ep & _ & Hrp).
    erewrite run_bind_Return by exact Ep. clear Ep.
    repeat (erewrite run_bind_Return by reflexivity).
    eexists. split; [reflexivity|].
    constructor; simpl; try done.
    + exists rl. repeat split; [done|].
      rewrite lookup_insert_ne; [done|]. intros <-. by rewrite Hrp in Hcl.
    + intros _. exists rp. repeat split.
      * destruct (heap s !! rp) as [o|] eqn:E; [|done].
        apply Hsub in E. congruence.
      * by rewrite lookup_insert_eq.
    + by repeat case_decide.
    + by repeat case_decide.
    + intros r o Hr. apply Hsub in Hr.
      rewrite lookup_insert_ne; [done|]. intros <-. congruence.
  - rewrite (decide_True (P := provider0 ≠ VUndefined)) by done.
    repeat (erewrite run_bind_Return by reflexivity).
    eexists. split; [reflexivity|].
    constructor; simpl; try done.
    + exists rl. by repeat split.
    + by repeat case_decide.
    + by repeat case_decide.
Qed.

(** ** The mode registry *)

(** C6: the registry holds exactly four entries, in this order: the planar
    mode with the planar node constructor, the spherical mode with the
    spherical one, the CPU-height mode with the height one and the
    GPU-height mode with the shader-height one; a lookup succeeds for these
    four mode ids and for no other. *)
Theorem mapModes_registry :
  JsMap.entries mapModes =
    [ (PLANAR, MapPlaneNode); (SPHERICAL, MapSphereNode);
      (HEIGHT, MapHeightNode); (HEIGHT_SHADER, MapHeightNodeShader) ]
  /\ JsMap.size mapModes = 4%nat
  /\ (forall m c, JsMap.get mapModes m = Some c <->
        (m = PLANAR /\ c = MapPlaneNode) \/
        (m = SPHERICAL /\ c = MapSphereNode) \/
        (m = HEIGHT /\ c = MapHeightNode) \/
        (m = HEIGHT_SHADER /\ c = MapHeightNodeShader))
  /\ (forall m, JsMap.has mapModes m = true <->
        m = PLANAR \/ m = SPHERICAL \/ m = HEIGHT \/ m = HEIGHT_SHADER).
Proof.
  split; [reflexivity|]. split; [reflexivity|].
  assert (Hget : forall m c, JsMap.get mapModes m = Some c <->
        (m = PLANAR /\ c = MapPlaneNode) \/
        (m = SPHERICAL /\ c = MapSphereNode) \/
        (m = HEIGHT /\ c = MapHeightNode) \/
        (m = HEIGHT_SHADER /\ c = MapHeightNodeShader)).
  { intros m c. unfold PLANAR, SPHERICAL, HEIGHT, HEIGHT_SHADER.
    change (JsMap.get mapModes m) with
      (if decide (m = 200%Z) then Some MapPlaneNode
       else if decide (m = 201%Z) then Some MapSphereNode
       else if decide (m = 202%Z) then Some MapHeightNode
       else if decide (m = 203%Z) then Some MapHeightNodeShader
       else None).
    repeat case_decide; subst; split; intros Hm;
      intuition (subst; congruence). }
  split; [exact Hget|].
  intros m. unfold JsMap.has.
  destruct (JsMap.get mapModes m) as [c|] eqn:E.
  - apply Hget in E. intuition.
  - split; [done|]. intros Hm.
    assert (exists c, JsMap.get mapModes m = Some c) as [c Hc].
    { destruct Hm as [Hm|[Hm|[Hm|Hm]]]; rewrite Hm; eexists; reflexivity. }
    congruence.
Qed.

(** ** Ray picking *)

(** C10: whatever the raycaster and the intersection list, [raycast]
    answers [false] and leaves the list and the store as they were. *)
Theorem raycast_never_hits (raycaster : Value) (intersects : list Value) (s : State) :
  raycast raycaster intersects s = Return (false, intersects) s.
Proof. reflexivity. Qed.

(** ** Selecting a root *)

(** C3: for a mode id that is not in the registry, [setRoot] throws the
    ['Map mode ... does is not registered.'] error before touching the
    store, so the root is the one it was; and the view's own caller of
    [setRoot], the constructor, lets the error through. *)
Theorem setRoot_unregistered statics (m : Z) (s : State) :
  JsMap.has mapModes m = false ->
  setRoot statics (VNumber m) s = Throw (Error (not_registered m)) s
  /\ (forall provider0 heightProvider0, exists s',
        constructor statics (VNumber m) provider0 heightProvider0 s
        = Throw (Error (not_registered m)) s').
Proof.
  intros Hm.
  assert (Hthrow : forall s0,
    setRoot statics (VNumber m) s0 = Throw (Error (not_registered m)) s0).
  { intros s0. unfold setRoot. apply run_bind_Throw. by rewrite Hm. }
  split; [apply Hthrow|].
  intros provider0 heightProvider0.
  destruct (constructor_prefix statics (VNumber m) provider0 heightProvider0 s)
    as (s1 & -> & _).
  rewrite Hthrow. eauto.
Qed.

Lemma setRoot_unregistered_witness :
  JsMap.has mapModes 7 = false
  /\ setRoot Sample.statics (VNumber 7) Sample.store12
     = Throw (Error "Map mode 7 does is not registered.") Sample.store12.
Proof.
  split; [reflexivity|].
  exact (proj1 (setRoot_unregistered Sample.statics 7 Sample.store12 eq_refl)).
Defined.

(** C8: whatever the arguments, the view the constructor builds (or leaves
    behind when [setRoot] throws) has a fresh [LODRaycast] as LOD control; a
    fresh [OpenStreetMapsProvider] as colour provider when none was given
    and the given one otherwise; and [null] as height provider when none was
    given and the given one otherwise. *)
Theorem constructor_defaults statics root0 provider0 heightProvider0 s s' :
  final (constructor statics root0 provider0 heightProvider0 s) = Some s' ->
  (exists l, lod (view s') = VObject l /\ heap s !! l = None /\
             class <$> heap s' !! l = Some LODRaycast)
  /\ (provider0 = VUndefined -> exists p,
        provider (view s') = VObject p /\ heap s !! p = None /\
        class <$> heap s' !! p = Some OpenStreetMapsProvider)
  /\ (provider0 <> VUndefined -> provider (view s') = provider0)
  /\ (heightProvider0 = VUndefined -> heightProvider (view s') = VNull)
  /\ (heightProvider0 <> VUndefined ->
        heightProvider (view s') = heightProvider0).
Proof.
  intros Hrun.
  destruct (constructor_prefix statics root0 provider0 heightProvider0 s)
    as (s1 & E & C).
  rewrite E in Hrun. apply stable_setRoot_keeps in Hrun.
  destruct Hrun as [_ Hlod Hprov Hheight _ Hclass].
  destruct C as [_ (l & Hl & Hfresh & Hcl) Hdef Hgiven Hh _ _ _ _ _].
  repeat split.
  - exists l. rewrite Hlod. auto.
  - intros Hu. destruct (Hdef Hu) as (p & Hp & Hpf & Hpc).
    exists p. rewrite Hprov. auto.
  - intros Hu. rewrite Hprov. auto.
  - intros ->. rewrite Hheight, Hh. by rewrite decide_True.
  - intros Hu. rewrite Hheight, Hh. by rewrite decide_False.
Qed.

Lemma constructor_defaults_witness :
  constructor Sample.statics (VObject 10%positive) VUndefined VUndefined
    Sample.empty_store = Return tt Sample.constructed_store
  /\ heightProvider (view Sample.constructed_store) = VNull.
Proof.
  split; [vm_compute; reflexivity|].
  refine (proj1 (proj2 (proj2 (proj2
    (constructor_defaults Sample.statics (VObject 10%positive) VUndefined VUndefined
       Sample.empty_store Sample.constructed_store _)))) eq_refl).
  vm_compute; reflexivity.
Defined.

(** ** Selecting a root by mode id *)

(** For a registered mode id, [setRoot] allocates a [Number] wrapper,
    unlinks the previous root, stores the wrapper as root, finds no
    [BASE_GEOMETRY] on its constructor and throws when it reads the
    missing [BASE_SCALE]. *)
Lemma setRoot_registered_run statics m s :
  JsMap.has mapModes m = true ->
  exists r,
    r <> this s /\ heap s !! r = None /\
    let s1 := set_heap (insert r (mkObject Number VUndefined [] VUndefined
                                           CacheUndefined (Some 0%Z))) s in
    let s2 := if decide (root (view s) = VNull) then s1
              else set_view (with_root VNull)
                     (Three.remove_from (this s) (root (view s)) s1) in
    keeps s1 s2 /\
    setRoot statics (VNumber m) s
    = Throw TypeError
        (set_view (with_geometry VUndefined)
           (set_view (with_root (VObject r)) s2)).
Proof.
  intros Hm. unfold setRoot. rewrite Hm. simpl negb. cbv iota.
  destruct (alloc_fresh (mkObject Number VUndefined [] VUndefined
                                  CacheUndefined (Some 0%Z)) s)
    as (r & E & Hne & Hfresh).
  exists r. split; [done|]. split; [done|]. cbv zeta.
  set (s1 := set_heap (insert r _) s) in *.
  set (s2 := if decide (root (view s) = VNull) then s1 else _).
  assert (K : keeps s1 s2).
  { subst s2. case_decide; [reflexivity|].
    etrans; [apply (keeps_remove_from (this s) (root (view s)) s1)|by constructor]. }
  split; [exact K|].
  erewrite run_bind_Return by exact E. clear E.
  erewrite run_bind_Return by reflexivity.
  assert (E2 : (if decide (root (view s1) ≠ VNull)
                then Three.remove (root (view s1)) ;;
                     modify (set_view (with_root VNull))
                else mret tt) s1 = Return tt s2).
  { subst s2. simpl. destruct (decide (root (view s) = VNull)) as [Hr|Hr].
    - by rewrite decide_False by (intros H; by apply H).
    - by rewrite decide_True by done. }
  erewrite run_bind_Return by exact E2. clear E2.
  assert (Hc : forall s3, this s3 = this s -> heap s3 = heap s2 ->
             constructor_of (VObject r) s3 = Return Number s3).
  { intros s3 Ht Hh. apply constructor_of_object; [congruence|].
    rewrite Hh. apply (keeps_class _ _ K). subst s1. simpl.
    by rewrite lookup_insert_eq. }
  assert (Ht : this s2 = this s) by (by destruct K).
  erewrite run_bind_Return by reflexivity.
  erewrite run_bind_Return by reflexivity.
  erewrite run_bind_Return by (apply Hc; done).
  erewrite run_bind_Return by reflexivity.
  erewrite run_bind_Return by reflexivity.
  erewrite run_bind_Return by (apply Hc; done).
  reflexivity.
Qed.

Lemma splice_first_subseteq r l : Three.splice_first r l ⊆ l.
Proof.
  induction l as [|x l IH]; simpl; [done|].
  case_decide; [intros y Hy; by right|].
  intros y Hy. apply elem_of_cons in Hy as [->|Hy]; [left|right; by apply IH].
Qed.

Lemma remove_from_view_children p object s :
  view_children (view (Three.remove_from p object s)) ⊆ view_children (view s).
Proof.
  unfold Three.remove_from. destruct object; try done.
  case_decide as Hin; [|done].
  unfold Three.set_children_of, Three.children_of, Three.set_parent_of in *.
  simpl. repeat case_decide; simpl in *; try done; apply splice_first_subseteq.
Qed.

Lemma remove_from_mapView p object s r :
  mapView <$> heap (Three.remove_from p object s) !! r
  = mapView <$> heap s !! r.
Proof.
  unfold Three.remove_from. destruct object; try done.
  case_decide as Hin; [|done].
  unfold Three.set_children_of, Three.set_parent_of.
  repeat case_decide; simpl; rewrite ?field_alter; done.
Qed.

(** C2, as the code behaves: for a registered mode id with
    registry entry [c], [setRoot] does not build an instance of [c].  It
    builds a wrapper of the builtin [Number] class, makes it the root and
    then throws a [TypeError]. *)
Theorem setRoot_mode_builds_Number statics m c s :
  JsMap.get mapModes m = Some c ->
  exists r s',
    setRoot statics (VNumber m) s = Throw TypeError s'
    /\ heap s !! r = None
    /\ root (view s') = VObject r
    /\ class <$> heap s' !! r = Some Number
    /\ class <$> heap s' !! r <> Some (NodeClass c).
Proof.
  intros Hget.
  assert (Hm : JsMap.has mapModes m = true) by (unfold JsMap.has; by rewrite Hget).
  destruct (setRoot_registered_run statics m s Hm) as (r & Hne & Hfresh & K & E).
  exists r. eexists. split; [exact E|]. split; [done|]. split; [done|].
  assert (Hc : class <$> heap (set_view (with_geometry VUndefined)
                 (set_view (with_root (VObject r))
                    (if decide (root (view s) = VNull)
                     then set_heap (insert r (mkObject Number VUndefined []
                            VUndefined CacheUndefined (Some 0%Z))) s
                     else set_view (with_root VNull)
                            (Three.remove_from (this s) (root (view s))
                               (set_heap (insert r (mkObject Number VUndefined []
                                  VUndefined CacheUndefined (Some 0%Z))) s)))))
               !! r = Some Number).
  { simpl. apply (keeps_class _ _ K). simpl. by rewrite lookup_insert_eq. }
  split; [exact Hc|]. rewrite Hc. discriminate.
Qed.

Lemma setRoot_mode_builds_Number_witness :
  JsMap.get mapModes PLANAR = Some MapPlaneNode
  /\ exists r s',
       setRoot Sample.statics (VNumber PLANAR) Sample.store12 = Throw TypeError s'
       /\ heap Sample.store12 !! r = None
       /\ root (view s') = VObject r
       /\ class <$> heap s' !! r = Some Number
       /\ class <$> heap s' !! r <> Some (NodeClass MapPlaneNode).
Proof.
  split; [reflexivity|].
  exact (setRoot_mode_builds_Number Sample.statics PLANAR MapPlaneNode
           Sample.store12 eq_refl).
Defined.

(** C7, as the code behaves: for a registered mode id
    [setRoot] never returns.  It throws a [TypeError] and leaves a view
    whose root is an object that is not among the children of the view,
    that has no [mapView] back-reference, and whose geometry is
    [undefined]. *)
Theorem setRoot_mode_throws statics m s :
  JsMap.has mapModes m = true ->
  (forall c, c ∈ view_children (view s) -> is_Some (heap s !! c)) ->
  exists r s',
    setRoot statics (VNumber m) s = Throw TypeError s'
    /\ root (view s') = VObject r
    /\ (r ∉ view_children (view s'))
    /\ mapView <$> heap s' !! r = Some VUndefined
    /\ geometry (view s') = VUndefined.
Proof.
  intros Hm Hwf.
  destruct (setRoot_registered_run statics m s Hm) as (r & Hne & Hfresh & K & E).
  exists r. eexists. split; [exact E|]. clear E K.
  assert (Hnot : r ∉ view_children (view s)).
  { intros Hin. destruct (Hwf r Hin) as [o Ho]. congruence. }
  split; [done|]. simpl. split; [|split; [|done]].
  - case_decide; simpl; [done|].
    intros Hin. apply remove_from_view_children in Hin. done.
  - case_decide; simpl.
    + by rewrite lookup_insert_eq.
    + rewrite remove_from_mapView. simpl. by rewrite lookup_insert_eq.
Qed.

Lemma setRoot_mode_throws_witness :
  JsMap.has mapModes PLANAR = true
  /\ exists r s',
       setRoot Sample.statics (VNumber PLANAR) Sample.store12 = Throw TypeError s'
       /\ root (view s') = VObject r
       /\ (r ∉ view_children (view s'))
       /\ mapView <$> heap s' !! r = Some VUndefined
       /\ geometry (view s') = VUndefined.
Proof.
  split; [reflexivity|].
  apply (setRoot_mode_throws Sample.statics PLANAR Sample.store12 eq_refl).
  intros c Hc. apply list_elem_of_singleton in Hc. subst c.
  eexists. reflexivity.
Defined.

(** ** Dropping and reloading tile content *)

Lemma dropped_class o o' : dropped o o' -> class o' = class o.
Proof. by intros [->|[_ ->]]. Qed.

Lemma dropped_children o o' : dropped o o' -> children o' = children o.
Proof. by intros [->|[_ ->]]. Qed.

Lemma dropped_parent o o' : dropped o o' -> parent o' = parent o.
Proof. by intros [->|[_ ->]]. Qed.

Lemma dropped_falsy o o' :
  dropped o o' -> truthy_cache (childrenCache o) = false ->
  truthy_cache (childrenCache o') = false.
Proof. by intros [->|[? ->]]. Qed.

Lemma dropped_trans o1 o2 o3 : dropped o1 o2 -> dropped o2 o3 -> dropped o1 o3.
Proof.
  intros [->|[H1 ->]] [->|[H2 ->]]; try (by left); try (by right).
Qed.

Lemma reloads_defines s s' r :
  reloads s s' -> defines_loadTexture s' r = defines_loadTexture s r.
Proof.
  intros [Ht _ Hh _]. unfold defines_loadTexture. rewrite Ht.
  case_decide; [done|].
  destruct (Hh r) as [o o' Hd|]; [|done]. by rewrite (dropped_class _ _ Hd).
Qed.

Lemma reloads_children_of s s' p :
  reloads s s' -> Three.children_of s' p = Three.children_of s p.
Proof.
  intros [Ht Hv Hh _]. unfold Three.children_of. rewrite Ht, Hv.
  case_decide; [done|].
  destruct (Hh p) as [o o' Hd|]; [|done]. by rewrite (dropped_children _ _ Hd).
Qed.

Lemma reloads_parent_of s s' p :
  reloads s s' -> Three.parent_of s' p = Three.parent_of s p.
Proof.
  intros [Ht Hv Hh _]. unfold Three.parent_of. rewrite Ht, Hv.
  case_decide; [done|].
  destruct (Hh p) as [o o' Hd|]; [|done]. by rewrite (dropped_parent _ _ Hd).
Qed.

Lemma reloads_falsy s s' r :
  reloads s s' -> truthy_cache (childrenCache_of s r) = false ->
  truthy_cache (childrenCache_of s' r) = false.
Proof.
  intros [Ht _ Hh _]. unfold childrenCache_of. rewrite Ht.
  case_decide; [done|].
  destruct (Hh r) as [o o' Hd|]; [|done]. by apply dropped_falsy.
Qed.

#[global] Instance reloads_preorder : PreOrder reloads.
Proof.
  split.
  - intros s. constructor; try done.
    + intros r. destruct (heap s !! r); constructor. by left.
    + exists []. by rewrite app_nil_r.
  - intros s1 s2 s3 H12 H23.
    pose proof (fun r => reloads_defines _ _ r H12) as Hdef.
    destruct H12 as [Ht1 Hv1 Hh1 (e1 & Hl1 & F1)].
    destruct H23 as [Ht2 Hv2 Hh2 (e2 & Hl2 & F2)].
    constructor; try congruence.
    + intros r. specialize (Hh1 r). specialize (Hh2 r).
      destruct Hh1 as [o1 o2 Hd1|]; inversion Hh2; subst; constructor.
      by eapply dropped_trans.
    + exists (e1 ++ e2). split; [by rewrite Hl2, Hl1, app_assoc|].
      apply Forall_app. split; [done|].
      eapply Forall_impl; [exact F2|]. intros e (r & -> & Hr).
      exists r. rewrite <- Hv1, <- Hdef. done.
Qed.

Lemma reloads_quiet s s' : reloads s s' -> quiet s s'.
Proof.
  intros [_ _ _ (evs & Hl & F)]. exists evs. split; [done|].
  eapply Forall_impl; [exact F|]. by intros e (r & -> & _).
Qed.

Lemma visited_mono s0 s1 s2 s3 d :
  reloads s0 s1 -> visited s1 s2 d -> reloads s2 s3 -> visited s0 s3 d.
Proof.
  intros H01 [Hc Hl] H23. split.
  - by eapply reloads_falsy.
  - intros Hd. rewrite <- (reloads_defines _ _ d H01) in Hd.
    destruct (Hl Hd) as (evs & E & Hin).
    destruct H01 as [_ Hv1 _ (e1 & E1 & _)].
    destruct H23 as [_ _ _ (e3 & E3 & _)].
    exists (e1 ++ evs ++ e3). split.
    + rewrite E3, E, E1. by rewrite <- !app_assoc.
    + rewrite <- Hv1. rewrite !elem_of_app. tauto.
Qed.

Lemma reloads_drop r s :
  truthy_cache (childrenCache_of s r) = true ->
  reloads s (set_heap (alter (with_childrenCache CacheNull) r) s)
  /\ childrenCache_of (set_heap (alter (with_childrenCache CacheNull) r) s) r
     = CacheNull.
Proof.
  unfold childrenCache_of. simpl. case_decide as Hne; [done|].
  destruct (heap s !! r) as [o|] eqn:Ho; [|done]. intros Hc. split.
  - constructor; simpl; try done.
    + intros r'. destruct (decide (r = r')) as [<-|Hr].
      * rewrite lookup_alter_eq, Ho. constructor. by right.
      * rewrite lookup_alter_ne by done.
        destruct (heap s !! r'); constructor. by left.
    + exists []. by rewrite app_nil_r.
  - by rewrite lookup_alter_eq, Ho.
Qed.

Lemma reloads_load r s :
  defines_loadTexture s r = true ->
  reloads s (mkState (this s) (view s) (heap s)
               (log s ++ [LoadTexture r (provider (view s))])).
Proof.
  intros Hd. constructor; simpl; try done.
  - intros r'. destruct (heap s !! r'); constructor. by left.
  - eexists. split; [done|]. constructor; [|done]. by exists r.
Qed.

(** The callback of [clear] always returns. *)
Lemma clear_callback_run r s :
  exists s1, clear_callback r s = Return tt s1 /\ reloads s s1 /\ visited s s1 r.
Proof.
  unfold clear_callback. erewrite run_bind_Return by reflexivity.
  assert (exists sa,
    (if truthy_cache (childrenCache_of s r)
     then modify (set_heap (alter (with_childrenCache CacheNull) r))
     else mret tt) s = Return tt sa
    /\ reloads s sa /\ truthy_cache (childrenCache_of sa r) = false)
    as (sa & Ea & Ra & Ca).
  { destruct (truthy_cache (childrenCache_of s r)) eqn:Hc.
    - destruct (reloads_drop r s Hc) as [R C].
      eexists. split; [reflexivity|]. split; [done|]. by rewrite C.
    - exists s. split; [done|]. split; [reflexivity|done]. }
  erewrite run_bind_Return by exact Ea. clear Ea.
  erewrite run_bind_Return by reflexivity.
  pose proof (reloads_defines _ _ r Ra) as Hdef.
  destruct (defines_loadTexture sa r) eqn:Hd.
  - eexists. split; [reflexivity|].
    pose proof (reloads_load r sa Hd) as Rb.
    split; [by etrans|]. split.
    + by eapply reloads_falsy.
    + intros _. destruct Ra as [_ Hv _ (e1 & E1 & _)].
      exists (e1 ++ [LoadTexture r (provider (view s))]). simpl.
      rewrite E1, Hv, <- app_assoc. split; [done|].
      rewrite elem_of_app, list_elem_of_singleton. by right.
  - exists sa. split; [done|]. split; [done|]. split; [done|].
    rewrite <- Hdef. discriminate.
Qed.

Lemma stable_clear_callback r : stable reloads (clear_callback r).
Proof.
  intros s s'. destruct (clear_callback_run r s) as (s1 & -> & R & _).
  by intros [= <-].
Qed.

(** [reach] read from the top: a descendant of [p] is [p] itself or a
    descendant of one of its children. *)
Lemma reach_first s p d :
  reach s p d -> d = p \/ exists c, c ∈ Three.children_of s p /\ reach s c d.
Proof.
  induction 1 as [|q r Hpq IH Hr]; [by left|].
  right. destruct IH as [->|(c & Hc & Hcq)].
  - exists r. split; [done|constructor].
  - exists c. split; [done|]. by eapply reach_child.
Qed.

Lemma reach_step s p c d :
  c ∈ Three.children_of s p -> reach s c d -> reach s p d.
Proof.
  intros Hc. induction 1 as [|q r Hcq IH Hr].
  - eapply reach_child; [constructor|done].
  - by eapply reach_child.
Qed.

Lemma reloads_reach s s' p d : reloads s s' -> reach s' p d <-> reach s p d.
Proof.
  intros R. split; induction 1 as [|q r Hq IH Hr]; try constructor.
  - eapply reach_child; [done|]. by rewrite <- (reloads_children_of _ _ q R).
  - eapply reach_child; [done|]. by rewrite (reloads_children_of _ _ q R).
Qed.

Lemma reloads_depth_ok fuel s s' r :
  reloads s s' -> depth_ok fuel s' r = depth_ok fuel s r.
Proof.
  intros R. revert r. induction fuel as [|fuel IH]; intros r; simpl; [done|].
  rewrite (reloads_children_of _ _ r R).
  induction (Three.children_of s r) as [|c l IHl]; simpl; [done|].
  by rewrite IH, IHl.
Qed.

(** With enough fuel the traversal returns, and it has visited every
    object at or below its starting point. *)
Lemma traverse_from_visits fuel : forall r s,
  depth_ok fuel s r = true ->
  exists s',
    Three.traverse_from fuel clear_callback r s = Return tt s'
    /\ reloads s s'
    /\ forall d, reach s r d -> visited s s' d.
Proof.
  induction fuel as [|fuel IH]; intros r s Hdepth; [done|].
  simpl in Hdepth. simpl Three.traverse_from.
  destruct (clear_callback_run r s) as (s1 & E1 & R1 & V1).
  erewrite run_bind_Return by exact E1. clear E1.
  erewrite run_bind_Return by reflexivity.
  rewrite (reloads_children_of _ _ r R1).
  assert (Hall : forall l sa,
    reloads s sa -> forallb (depth_ok fuel s) l = true ->
    exists sb,
      Three.for_each (Three.traverse_from fuel clear_callback) l sa
      = Return tt sb
      /\ reloads sa sb
      /\ forall c d, c ∈ l -> reach s c d -> visited sa sb d).
  { induction l as [|c l IHl]; intros sa Ra Hl.
    - exists sa. split; [done|]. split; [reflexivity|].
      intros c d Hc. by apply elem_of_nil in Hc.
    - simpl in Hl. apply andb_true_iff in Hl as [Hc Hl].
      rewrite <- (reloads_depth_ok _ _ _ _ Ra) in Hc.
      destruct (IH c sa Hc) as (sb & Eb & Rb & Vb).
      destruct (IHl sb (transitivity Ra Rb) Hl) as (sc & Ec & Rc & Vc).
      exists sc. split; [|split].
      + simpl. erewrite run_bind_Return by exact Eb. exact Ec.
      + by etrans.
      + intros c' d Hc' Hd. apply elem_of_cons in Hc' as [->|Hc'].
        * eapply (visited_mono sa sa sb sc); [reflexivity| |done].
          apply Vb. by apply (reloads_reach _ _ _ _ Ra).
        * eapply (visited_mono sa sb sc sc); [done| |reflexivity].
          by eapply Vc. }
  destruct (Hall _ s1 R1 Hdepth) as (s2 & E2 & R2 & V2).
  exists s2. split; [exact E2|]. split; [by etrans|].
  intros d Hd. apply reach_first in Hd as [->|(c & Hc & Hd)].
  - eapply (visited_mono s s s1 s2); [reflexivity|done|done].
  - eapply (visited_mono s s1 s2 s2); [done| |reflexivity]. by eapply V2.
Qed.

Lemma reloads_preorder_list fuel s s' r :
  reloads s s' -> preorder fuel s' r = preorder fuel s r.
Proof.
  intros R. revert r. induction fuel as [|fuel IH]; intros r; simpl; [done|].
  rewrite (reloads_children_of _ _ r R). f_equal.
  induction (Three.children_of s r) as [|c l IHl]; simpl; [done|].
  by rewrite IH, IHl.
Qed.

Lemma reloads_resident_nodes fuel s s' :
  reloads s s' -> resident_nodes fuel s' = resident_nodes fuel s.
Proof.
  intros R. unfold resident_nodes.
  rewrite (reloads_this _ _ R), (reloads_preorder_list _ _ _ _ R).
  induction (preorder fuel s (this s)) as [|x l IH]; [done|].
  rewrite !filter_cons, IH, (reloads_defines _ _ x R).
  by repeat case_decide.
Qed.

Lemma reloads_dom s s' : reloads s s' -> dom (heap s') = dom (heap s).
Proof.
  intros R. apply set_eq. intros r. rewrite !elem_of_dom.
  destruct (reloads_heap _ _ R r) as [o o' _|]; split; eauto.
Qed.

Lemma reloads_in_tree s s' r : reloads s s' -> in_tree s' r <-> in_tree s r.
Proof.
  intros R. unfold in_tree. rewrite (reloads_this _ _ R).
  by apply reloads_reach.
Qed.

(** The objects listed by [preorder] are the ones [reach] relates. *)
Lemma preorder_reach fuel : forall s r d,
  depth_ok fuel s r = true -> d ∈ preorder fuel s r <-> reach s r d.
Proof.
  induction fuel as [|fuel IH]; intros s r d Hdepth; [done|].
  simpl in *. rewrite elem_of_cons, list_elem_of_In, in_flat_map.
  rewrite forallb_forall in Hdepth.
  split.
  - intros [->|(c & Hc & Hd)]; [constructor|].
    eapply reach_step; [by apply list_elem_of_In|].
    apply IH; [by apply Hdepth|by apply list_elem_of_In].
  - intros Hd. apply reach_first in Hd as [->|(c & Hc & Hd)]; [by left|].
    apply list_elem_of_In in Hc.
    right. exists c. split; [done|].
    apply list_elem_of_In, IH; [by apply Hdepth|done].
Qed.

(** [clear] on a scene that the fuel covers. *)
Lemma clear_run fuel s :
  depth_ok fuel s (this s) = true ->
  exists s',
    clear fuel s = Return (VObject (this s)) s'
    /\ reloads s s'
    /\ forall d, in_tree s d -> visited s s' d.
Proof.
  intros Hdepth.
  destruct (traverse_from_visits fuel (this s) s Hdepth) as (s' & E & R & V).
  exists s'. split; [|by split].
  unfold clear, Three.traverse.
  rewrite run_bind_assoc. erewrite run_bind_Return by reflexivity.
  erewrite run_bind_Return by exact E.
  erewrite run_bind_Return by reflexivity.
  by rewrite (reloads_this _ _ R).
Qed.

Lemma stable_clear_reloads fuel : stable reloads (clear fuel).
Proof.
  unfold clear, Three.traverse. stable_steps.
  apply stable_traverse_from; [apply _|apply stable_clear_callback].
Qed.

(** C4: when the scene below the view is finite (the fuel covers it),
    [clear] returns the view itself.  The view's fields, the set of objects
    and the parent and children of every object are as before, so the tree
    of resident nodes has the same nodes in the same places.  Every object
    in the tree that had a children cache has [null] there, none holds a
    cache any more, and every map node in the tree was asked to load its
    texture from the view's current provider. *)
Theorem clear_reloads_in_place fuel s :
  depth_ok fuel s (this s) = true ->
  exists s',
    clear fuel s = Return (VObject (this s)) s'
    /\ this s' = this s
    /\ view s' = view s
    /\ dom (heap s') = dom (heap s)
    /\ (forall r, Three.children_of s' r = Three.children_of s r
                  /\ Three.parent_of s' r = Three.parent_of s r)
    /\ (forall r, in_tree s' r <-> in_tree s r)
    /\ resident_nodes fuel s' = resident_nodes fuel s
    /\ (forall r, in_tree s r ->
          truthy_cache (childrenCache_of s r) = true ->
          childrenCache_of s' r = CacheNull)
    /\ (forall r, in_tree s r -> truthy_cache (childrenCache_of s' r) = false)
    /\ (forall r, in_tree s r -> defines_loadTexture s r = true ->
          exists evs, log s' = log s ++ evs
                      /\ LoadTexture r (provider (view s)) ∈ evs).
Proof.
  intros Hdepth. destruct (clear_run fuel s Hdepth) as (s' & E & R & V).
  exists s'. split; [exact E|].
  split; [apply R|]. split; [apply R|]. split; [by apply reloads_dom|].
  split; [intros r; split; [by apply reloads_children_of|by apply reloads_parent_of]|].
  split; [intros r; by apply reloads_in_tree|].
  split; [by apply reloads_resident_nodes|].
  split; [|split].
  - intros r Hr Hc. destruct (V r Hr) as [Hfalse _].
    unfold childrenCache_of in *. rewrite (reloads_this _ _ R) in *.
    case_decide; [done|].
    destruct (reloads_heap _ _ R r) as [o o' [->|[_ ->]]|]; [|done|done].
    congruence.
  - intros r Hr. by destruct (V r Hr).
  - intros r Hr Hd. destruct (V r Hr) as [_ Hl]. by apply Hl.
Qed.

Lemma clear_reloads_in_place_witness :
  depth_ok 4 Sample.store12 (this Sample.store12) = true
  /\ exists s',
       clear 4 Sample.store12 = Return (VObject (this Sample.store12)) s'
       /\ resident_nodes 4 s' = resident_nodes 4 Sample.store12.
Proof.
  split; [reflexivity|].
  destruct (clear_reloads_in_place 4 Sample.store12 eq_refl)
    as (s' & E & _ & _ & _ & _ & _ & R & _).
  exists s'. split; [exact E|exact R].
Defined.

(** ** Swapping providers *)

(** Changing a field of the view other than its children leaves the scene
    graph as it is. *)
Lemma set_view_children_of f s r :
  view_children (f (view s)) = view_children (view s) ->
  Three.children_of (set_view f s) r = Three.children_of s r.
Proof. intros H. unfold Three.children_of. simpl. by rewrite H. Qed.

Lemma set_view_depth_ok f s fuel r :
  view_children (f (view s)) = view_children (view s) ->
  depth_ok fuel (set_view f s) r = depth_ok fuel s r.
Proof.
  intros H. revert r. induction fuel as [|fuel IH]; intros r; simpl; [done|].
  rewrite (set_view_children_of _ _ _ H).
  induction (Three.children_of s r) as [|c l IHl]; simpl; [done|].
  by rewrite IH, IHl.
Qed.

Lemma set_view_preorder f s fuel r :
  view_children (f (view s)) = view_children (view s) ->
  preorder fuel (set_view f s) r = preorder fuel s r.
Proof.
  intros H. revert r. induction fuel as [|fuel IH]; intros r; simpl; [done|].
  rewrite (set_view_children_of _ _ _ H). f_equal.
  induction (Three.children_of s r) as [|c l IHl]; simpl; [done|].
  by rewrite IH, IHl.
Qed.

Lemma set_view_reach f s p d :
  view_children (f (view s)) = view_children (view s) ->
  reach (set_view f s) p d <-> reach s p d.
Proof.
  intros H. split; induction 1 as [|q r Hq IH Hr]; try constructor.
  - eapply reach_child; [done|]. by rewrite <- (set_view_children_of f s q H).
  - eapply reach_child; [done|]. by rewrite (set_view_children_of f s q H).
Qed.

(** What [setProvider] and [setHeightProvider] do after storing the new
    provider: [clear], on a view [f (view s)] that has the children of
    [view s]. *)
Lemma swap_then_clear fuel f s :
  view_children (f (view s)) = view_children (view s) ->
  view_parent (f (view s)) = view_parent (view s) ->
  depth_ok fuel s (this s) = true ->
  exists s',
    (modify (set_view f) ;; clear fuel ;; mret tt) s = Return tt s'
    /\ this s' = this s
    /\ view s' = f (view s)
    /\ dom (heap s') = dom (heap s)
    /\ (forall r, Three.children_of s' r = Three.children_of s r
                  /\ Three.parent_of s' r = Three.parent_of s r)
    /\ (forall r, in_tree s' r <-> in_tree s r)
    /\ resident_nodes fuel s' = resident_nodes fuel s
    /\ (forall r, in_tree s r -> truthy_cache (childrenCache_of s' r) = false)
    /\ (forall r, in_tree s r -> defines_loadTexture s r = true ->
          exists evs, log s' = log s ++ evs
                      /\ LoadTexture r (provider (f (view s))) ∈ evs).
Proof.
  intros Hch Hpar Hdepth.
  assert (Hd0 : depth_ok fuel (set_view f s) (this (set_view f s)) = true).
  { simpl. by rewrite set_view_depth_ok. }
  destruct (clear_run fuel _ Hd0) as (s' & E & R & V).
  exists s'. split.
  { erewrite run_bind_Return by reflexivity.
    erewrite run_bind_Return by exact E. done. }
  split; [apply R|]. split; [apply R|]. split; [by rewrite (reloads_dom _ _ R)|].
  split; [|split; [|split; [|split]]].
  - intros r. rewrite (reloads_children_of _ _ r R), (reloads_parent_of _ _ r R).
    split; [by apply set_view_children_of|].
    unfold Three.parent_of. simpl. by rewrite Hpar.
  - intros r. rewrite (reloads_in_tree _ _ r R). by apply set_view_reach.
  - rewrite (reloads_resident_nodes _ _ _ R). unfold resident_nodes. simpl.
    by rewrite set_view_preorder.
  - intros r Hr. apply V. by apply set_view_reach.
  - intros r Hr Hdef. destruct (V r) as [_ Hl]; [by apply set_view_reach|].
    by apply Hl.
Qed.

(** C1, as the code has it: for a provider [p] other than the current one,
    [setProvider p] stores [p] and runs [clear].  No node leaves the tree:
    the resident nodes after the call are the resident nodes before it, in
    the same places.  None of them holds a children cache any more, and
    each was asked to load its texture, the request going to [p].
    [setHeightProvider] does the same with the height provider, the
    texture requests going to the colour provider in use. *)
Theorem setProvider_reloads_in_place fuel s p :
  depth_ok fuel s (this s) = true ->
  (p <> provider (view s) ->
   exists s',
     setProvider fuel p s = Return tt s'
     /\ view s' = with_provider p (view s)
     /\ dom (heap s') = dom (heap s)
     /\ (forall r, Three.children_of s' r = Three.children_of s r
                   /\ Three.parent_of s' r = Three.parent_of s r)
     /\ (forall r, in_tree s' r <-> in_tree s r)
     /\ resident_nodes fuel s' = resident_nodes fuel s
     /\ (forall r, in_tree s r -> truthy_cache (childrenCache_of s' r) = false)
     /\ (forall r, in_tree s r -> defines_loadTexture s r = true ->
           exists evs, log s' = log s ++ evs /\ LoadTexture r p ∈ evs))
  /\ (p <> heightProvider (view s) ->
      exists s',
        setHeightProvider fuel p s = Return tt s'
        /\ view s' = with_heightProvider p (view s)
        /\ dom (heap s') = dom (heap s)
        /\ (forall r, Three.children_of s' r = Three.children_of s r
                      /\ Three.parent_of s' r = Three.parent_of s r)
        /\ (forall r, in_tree s' r <-> in_tree s r)
        /\ resident_nodes fuel s' = resident_nodes fuel s
        /\ (forall r, in_tree s r ->
              truthy_cache (childrenCache_of s' r) = false)
        /\ (forall r, in_tree s r -> defines_loadTexture s r = true ->
              exists evs, log s' = log s ++ evs
                          /\ LoadTexture r (provider (view s)) ∈ evs)).
Proof.
  intros Hdepth. split; intros Hp.
  - destruct (swap_then_clear fuel (with_provider p) s eq_refl eq_refl Hdepth)
      as (s' & E & _ & H).
    exists s'. split; [|exact H].
    unfold setProvider. erewrite run_bind_Return by reflexivity.
    by rewrite decide_True.
  - destruct (swap_then_clear fuel (with_heightProvider p) s eq_refl eq_refl Hdepth)
      as (s' & E & _ & H).
    exists s'. split; [|exact H].
    unfold setHeightProvider. erewrite run_bind_Return by reflexivity.
    by rewrite decide_True.
Qed.

Lemma setProvider_reloads_in_place_witness :
  depth_ok 4 Sample.store12 (this Sample.store12) = true
  /\ VObject 6%positive <> provider (view Sample.store12)
  /\ exists s',
       setProvider 4 (VObject 6%positive) Sample.store12 = Return tt s'
       /\ resident_nodes 4 s' = resident_nodes 4 Sample.store12.
Proof.
  split; [reflexivity|]. split; [discriminate|].
  destruct (proj1 (setProvider_reloads_in_place 4 Sample.store12
                     (VObject 6%positive) eq_refl))
    as (s' & E & _ & _ & _ & _ & R & _); [discriminate|].
  exists s'. split; [exact E|exact R].
Defined.

(** C1 as stated does not hold: on the view with twelve resident nodes,
    [setProvider] with another provider returns a view that still has
    twelve resident nodes, not zero. *)
Lemma setProvider_destroys_tree_counterexample :
  VObject 6%positive <> provider (view Sample.store12)
  /\ length (resident_nodes 4 Sample.store12) = 12%nat
  /\ exists s',
       setProvider 4 (VObject 6%positive) Sample.store12 = Return tt s'
       /\ length (resident_nodes 4 s') = 12%nat
       /\ length (resident_nodes 4 s') <> 0%nat.
Proof.
  split; [discriminate|]. split; [reflexivity|].
  eexists. split; [vm_compute; reflexivity|].
  split; [vm_compute; reflexivity|vm_compute; discriminate].
Qed.

Lemma setProvider_post fuel p s s1 :
  final (setProvider fuel p s) = Some s1 -> provider (view s1) = p.
Proof.
  unfold setProvider. erewrite run_bind_Return by reflexivity.
  case_decide as Hp.
  - erewrite run_bind_Return by reflexivity. intros H.
    assert (R : stable reloads (clear fuel ;; mret tt)).
    { apply stable_bind; [apply _|apply stable_clear_reloads|].
      intros _. apply stable_ret, _. }
    apply R in H. by rewrite (reloads_view _ _ H).
  - intros [= <-]. by destruct (decide (p = provider (view s))).
Qed.

Lemma setHeightProvider_post fuel p s s1 :
  final (setHeightProvider fuel p s) = Some s1 -> heightProvider (view s1) = p.
Proof.
  unfold setHeightProvider. erewrite run_bind_Return by reflexivity.
  case_decide as Hp.
  - erewrite run_bind_Return by reflexivity. intros H.
    assert (R : stable reloads (clear fuel ;; mret tt)).
    { apply stable_bind; [apply _|apply stable_clear_reloads|].
      intros _. apply stable_ret, _. }
    apply R in H. by rewrite (reloads_view _ _ H).
  - intros [= <-]. by destruct (decide (p = heightProvider (view s))).
Qed.

Lemma setProvider_same fuel s :
  setProvider fuel (provider (view s)) s = Return tt s.
Proof.
  unfold setProvider. erewrite run_bind_Return by reflexivity.
  by rewrite decide_False by (intros H; by apply H).
Qed.

Lemma setHeightProvider_same fuel s :
  setHeightProvider fuel (heightProvider (view s)) s = Return tt s.
Proof.
  unfold setHeightProvider. erewrite run_bind_Return by reflexivity.
  by rewrite decide_False by (intros H; by apply H).
Qed.

(** C9: [setProvider] with the provider the view already uses returns at
    once and leaves the whole store as it is, and so does
    [setHeightProvider] with the height provider in use.  Hence after a
    call that returned, a second call with the same argument changes
    nothing. *)
Theorem setProvider_same_is_noop fuel s p :
  (p = provider (view s) -> setProvider fuel p s = Return tt s)
  /\ (p = heightProvider (view s) -> setHeightProvider fuel p s = Return tt s)
  /\ (forall s1, setProvider fuel p s = Return tt s1 ->
        forall fuel', setProvider fuel' p s1 = Return tt s1)
  /\ (forall s1, setHeightProvider fuel p s = Return tt s1 ->
        forall fuel', setHeightProvider fuel' p s1 = Return tt s1).
Proof.
  split; [intros ->; apply setProvider_same|].
  split; [intros ->; apply setHeightProvider_same|].
  split; intros s1 E fuel'.
  - assert (Hp : provider (view s1) = p).
    { apply (setProvider_post fuel p s). by rewrite E. }
    rewrite <- Hp at 1. apply setProvider_same.
  - assert (Hp : heightProvider (view s1) = p).
    { apply (setHeightProvider_post fuel p s). by rewrite E. }
    rewrite <- Hp at 1. apply setHeightProvider_same.
Qed.

Lemma setProvider_same_is_noop_witness :
  VObject 3%positive = provider (view Sample.store12)
  /\ setProvider 4 (VObject 3%positive) Sample.store12
     = Return tt Sample.store12.
Proof.
  split; [reflexivity|].
  exact (proj1 (setProvider_same_is_noop 4 Sample.store12 (VObject 3%positive))
               eq_refl).
Defined.

(** ** The per-frame hook *)

Lemma stable_clear_quiet fuel : stable quiet (clear fuel).
Proof. intros s s' H. by apply reloads_quiet, (stable_clear_reloads fuel s). Qed.

Lemma stable_setProvider_quiet fuel p : stable quiet (setProvider fuel p).
Proof.
  unfold setProvider. pose proof (stable_clear_quiet fuel). stable_steps.
Qed.

Lemma stable_setHeightProvider_quiet fuel p :
  stable quiet (setHeightProvider fuel p).
Proof.
  unfold setHeightProvider. pose proof (stable_clear_quiet fuel). stable_steps.
Qed.

Lemma stable_getMetaData_quiet : stable quiet getMetaData.
Proof. unfold getMetaData. stable_steps. Qed.

Lemma stable_constructor_quiet statics root0 provider0 heightProvider0 :
  stable quiet (constructor statics root0 provider0 heightProvider0).
Proof.
  intros s s'.
  destruct (constructor_prefix statics root0 provider0 heightProvider0 s)
    as (s1 & -> & C).
  intros H. apply stable_setRoot_quiet in H.
  etrans; [|exact H]. apply quiet_same_log, C.
Qed.

Lemma onBeforeRender_run updateLOD renderer scene camera g m grp s l :
  lod (view s) = VObject l ->
  onBeforeRender updateLOD renderer scene camera g m grp s
  = Return tt
      (mkState (this s) (view s)
         (updateLOD l (this s) camera renderer scene (heap s))
         (log s ++ [UpdateLOD l (this s) camera renderer scene])).
Proof.
  intros Hl. unfold onBeforeRender.
  erewrite run_bind_Return by reflexivity. by rewrite Hl.
Qed.

Lemma renderFrames_run updateLOD renderer scene l cameras : forall s,
  lod (view s) = VObject l ->
  exists s',
    Host.renderFrames updateLOD renderer scene cameras s = Return tt s'
    /\ this s' = this s /\ view s' = view s
    /\ log s' = log s ++
         flat_map (fun camera =>
                     [UpdateLOD l (this s) camera renderer scene; Draw])
                  cameras.
Proof.
  induction cameras as [|camera rest IH]; intros s Hl.
  - exists s. by rewrite app_nil_r.
  - simpl Host.renderFrames. unfold Host.renderFrame.
    rewrite run_bind_assoc.
    erewrite run_bind_Return by (by apply onBeforeRender_run).
    erewrite run_bind_Return by reflexivity.
    match goal with |- context [ Host.renderFrames _ _ _ _ ?s0 ] =>
      destruct (IH s0 Hl) as (s' & E & Ht & Hv & Hlog) end.
    exists s'. split; [exact E|]. split; [done|]. split; [done|].
    rewrite Hlog. simpl. by rewrite <- !app_assoc.
Qed.

(** C5: when the view has its LOD control, [onBeforeRender] returns after
    one call of [updateLOD] on that control, with the view and the camera
    of the frame; over any sequence of frames the calls that leave the
    view are, frame after frame, that one [updateLOD] and then the draw;
    and no other method of the view calls [updateLOD]. *)
Theorem onBeforeRender_updates_LOD_once updateLOD renderer scene s l :
  lod (view s) = VObject l ->
  (forall camera g m grp, exists s',
     onBeforeRender updateLOD renderer scene camera g m grp s = Return tt s'
     /\ log s' = log s ++ [UpdateLOD l (this s) camera renderer scene])
  /\ (forall cameras, exists s',
        Host.renderFrames updateLOD renderer scene cameras s = Return tt s'
        /\ log s' = log s ++
             flat_map (fun camera =>
                         [UpdateLOD l (this s) camera renderer scene; Draw])
                      cameras
        /\ length (filter (fun e => is_UpdateLOD e = true) (log s'))
           = (length (filter (fun e => is_UpdateLOD e = true) (log s))
              + length cameras)%nat)
  /\ (forall statics v, stable quiet (setRoot statics v))
  /\ (forall statics v p hp, stable quiet (constructor statics v p hp))
  /\ (forall fuel, stable quiet (clear fuel))
  /\ (forall fuel p, stable quiet (setProvider fuel p))
  /\ (forall fuel p, stable quiet (setHeightProvider fuel p))
  /\ stable quiet getMetaData
  /\ (forall raycaster intersects, stable quiet (raycast raycaster intersects)).
Proof.
  intros Hl. split.
  { intros camera g m grp. eexists. split; [by apply onBeforeRender_run|done]. }
  split.
  { intros cameras.
    destruct (renderFrames_run updateLOD renderer scene l cameras s Hl)
      as (s' & E & _ & _ & Hlog).
    exists s'. split; [exact E|]. split; [exact Hlog|].
    rewrite Hlog, filter_app, length_app. f_equal.
    clear. induction cameras as [|c rest IH]; [done|].
    cbn [flat_map app]. rewrite filter_cons_True by done.
    rewrite filter_cons_False by done. cbn [length]. by rewrite IH. }
  split; [apply stable_setRoot_quiet|].
  split; [apply stable_constructor_quiet|].
  split; [apply stable_clear_quiet|].
  split; [apply stable_setProvider_quiet|].
  split; [apply stable_setHeightProvider_quiet|].
  split; [apply stable_getMetaData_quiet|].
  intros raycaster intersects. apply stable_ret, _.
Qed.

Lemma onBeforeRender_updates_LOD_once_witness :
  lod (view Sample.store12) = VObject 2%positive
  /\ exists s',
       onBeforeRender Sample.idleLOD VNull VNull (VObject 7%positive)
         VUndefined VUndefined VUndefined Sample.store12 = Return tt s'
       /\ log s' = log Sample.store12 ++
            [UpdateLOD 2%positive (this Sample.store12) (VObject 7%positive)
               VNull VNull].
Proof.
  split; [reflexivity|].
  exact (proj1 (onBeforeRender_updates_LOD_once Sample.idleLOD VNull VNull
                  Sample.store12 2%positive eq_refl)
               (VObject 7%positive) VUndefined VUndefined VUndefined).
Defined.

(** ** Selecting a root by node instance *)

Lemma unlink_run s :
  (if decide (root (view s) ≠ VNull)
   then Three.remove (root (view s)) ;; modify (set_view (with_root VNull))
   else mret tt) s = Return tt (unlinked s).
Proof.
  unfold unlinked. destruct (decide (root (view s) = VNull)) as [Hr|Hr].
  - by rewrite decide_False by (intros H; by apply H).
  - by rewrite decide_True by done.
Qed.

Lemma with_parent_same o : with_parent (parent o) o = o.
Proof. by destruct o. Qed.

Lemma unlinked_lookup s r o :
  r <> this s -> heap s !! r = Some o -> parent o = VNull ->
  heap (unlinked s) !! r = Some o.
Proof.
  intros Hne Ho Hp. unfold unlinked. case_decide; [done|]. simpl.
  unfold Three.remove_from. destruct (root (view s)) as [| | |r0]; try done.
  case_decide; [|done].
  unfold Three.set_children_of, Three.set_parent_of.
  repeat case_decide; simpl; try done.
  destruct (decide (r0 = r)) as [->|Hr].
  - rewrite lookup_alter_eq, Ho. simpl. by rewrite <- Hp, with_parent_same.
  - by rewrite lookup_alter_ne.
Qed.

Lemma unlinked_this s : this (unlinked s) = this s.
Proof.
  unfold unlinked. case_decide; [done|]. simpl.
  apply (keeps_this _ _ (keeps_remove_from _ _ _)).
Qed.

Lemma splice_first_NoDup r l : NoDup l -> r ∉ Three.splice_first r l.
Proof.
  induction 1 as [|x l Hx Hl IH]; simpl; [by intros ?%elem_of_nil|].
  case_decide; [by subst|].
  apply not_elem_of_cons. split; [congruence|done].
Qed.

(** Unlinking removes the previous root from the children of the view. *)
Lemma unlinked_detaches s r0 :
  NoDup (view_children (view s)) ->
  root (view s) = VObject r0 ->
  r0 ∉ view_children (view (unlinked s)).
Proof.
  intros Hnd Hr. unfold unlinked. rewrite Hr.
  rewrite decide_False by done. simpl.
  unfold Three.remove_from. case_decide as Hin.
  - unfold Three.set_children_of, Three.set_parent_of, Three.children_of in *.
    rewrite decide_True in Hin by done.
    repeat case_decide; simpl in *; try done; by apply splice_first_NoDup.
  - unfold Three.children_of in Hin. by rewrite decide_True in Hin.
Qed.

Lemma set_mapView_object r w s :
  r <> this s ->
  set_mapView (VObject r) w s
  = Return tt (set_heap (alter (with_mapView w) r) s).
Proof. intros Hne. unfold set_mapView. by rewrite decide_False. Qed.

Lemma add_unlinked r s o :
  r <> this s -> heap s !! r = Some o ->
  isObject3D (class o) = true -> parent o = VNull ->
  Three.add (VObject r) s
  = Return tt
      (set_view (with_view_children (view_children (view s) ++ [r]))
         (set_heap (alter (with_parent (VObject (this s))) r) s)).
Proof.
  intros Hne Ho Hc Hp. unfold Three.add.
  erewrite run_bind_Return by reflexivity.
  rewrite decide_False by done. rewrite Ho, Hc, Hp.
  erewrite run_bind_Return by reflexivity.
  erewrite run_bind_Return by reflexivity.
  unfold modify, Three.set_parent_of. simpl. by rewrite decide_False.
Qed.

(** For a map node instance that is not linked anywhere and whose class
    defines [BASE_SCALE], [setRoot] returns: the node is the root and the
    last child of the view, it points back to the view through [mapView]
    and [parent], the view's geometry and scale are the statics of the
    node's class, and the LOD control, the providers and the material of
    the view are as before. *)
Theorem setRoot_node_instance statics s r o k v :
  r <> this s ->
  heap s !! r = Some o ->
  class o = NodeClass k ->
  parent o = VNull ->
  BASE_SCALE statics k = Some v ->
  exists s',
    setRoot statics (VObject r) s = Return tt s'
    /\ root (view s') = VObject r
    /\ view_children (view s') = view_children (view (unlinked s)) ++ [r]
    /\ heap s' !! r
       = Some (with_parent (VObject (this s))
                 (with_mapView (VObject (this s)) o))
    /\ geometry (view s') = BASE_GEOMETRY statics k
    /\ scale (view s') = v
    /\ keeps s s'.
Proof.
  intros Hne Ho Hc Hp Hv.
  pose proof (unlinked_lookup s r o Hne Ho Hp) as Ho2.
  pose proof (unlinked_this s) as Ht2.
  assert (Hctor : forall s3, this s3 = this s -> heap s3 = heap (unlinked s) ->
            constructor_of (VObject r) s3 = Return (NodeClass k) s3).
  { intros s3 Ht Hh. apply constructor_of_object; [congruence|].
    rewrite Hh, Ho2. simpl. by rewrite Hc. }
  cut (exists s',
    setRoot statics (VObject r) s = Return tt s'
    /\ root (view s') = VObject r
    /\ view_children (view s') = view_children (view (unlinked s)) ++ [r]
    /\ heap s' !! r
       = Some (with_parent (VObject (this s))
                 (with_mapView (VObject (this s)) o))
    /\ geometry (view s') = BASE_GEOMETRY statics k
    /\ scale (view s') = v).
  { intros (s' & E & H). exists s'. split; [exact E|].
    repeat (split; [apply H|]).
    apply (stable_setRoot_keeps statics (VObject r) s). by rewrite E. }
  unfold setRoot.
  erewrite run_bind_Return by reflexivity.
  erewrite run_bind_Return by reflexivity.
  erewrite run_bind_Return by apply unlink_run.
  erewrite run_bind_Return by reflexivity.
  erewrite run_bind_Return by reflexivity.
  erewrite run_bind_Return by (by apply Hctor).
  erewrite run_bind_Return by reflexivity.
  erewrite run_bind_Return by reflexivity.
  erewrite run_bind_Return by (by apply Hctor).
  simpl static_BASE_SCALE. rewrite Hv.
  erewrite run_bind_Return by reflexivity.
  erewrite run_bind_Return by reflexivity.
  erewrite run_bind_Return by (apply set_mapView_object; simpl; congruence).
  erewrite run_bind_Return by reflexivity.
  eexists. split.
  { eapply (add_unlinked r _ (with_mapView (VObject (this s)) o)); simpl.
    - congruence.
    - rewrite lookup_alter_eq, Ho2. simpl. by rewrite Ht2.
    - by rewrite Hc.
    - done. }
  simpl. rewrite Ht2. split; [done|]. split; [done|].
  split; [|split; [done|by destruct v]].
  by rewrite !lookup_alter_eq, Ho2.
Qed.

Lemma setRoot_node_instance_witness :
  exists s',
    setRoot Sample.statics (VObject 10%positive) Sample.empty_store
    = Return tt s'
    /\ root (view s') = VObject 10%positive
    /\ view_children (view s') = [10%positive].
Proof.
  destruct (setRoot_node_instance Sample.statics Sample.empty_store 10%positive
              (Sample.node VNull [] CacheNull) MapPlaneNode
              (mkVector3 40075016 1 40075016))
    as (s' & E & Hr & Hch & _); try reflexivity; [discriminate|].
  exists s'. split; [exact E|]. split; [exact Hr|exact Hch].
Defined.

(** * Further properties *)

(** ** The exact effect of [clear] *)

Lemma clear_callback_visit r s : clear_callback r s = Return tt (visit r s).
Proof.
  unfold clear_callback, visit.
  erewrite run_bind_Return by reflexivity.
  destruct (truthy_cache (childrenCache_of s r)).
  - erewrite run_bind_Return by reflexivity.
    erewrite run_bind_Return by reflexivity.
    by destruct (defines_loadTexture _ r).
  - erewrite run_bind_Return by reflexivity.
    erewrite run_bind_Return by reflexivity.
    by destruct (defines_loadTexture _ r).
Qed.

Lemma reloads_visit r s : reloads s (visit r s).
Proof.
  apply (stable_clear_callback r s). by rewrite clear_callback_visit.
Qed.

Lemma reloads_visit_all l : forall s, reloads s (visit_all l s).
Proof.
  induction l as [|r l IH]; intros s; simpl; [reflexivity|].
  etrans; [apply reloads_visit|apply IH].
Qed.

Lemma visit_all_app l1 l2 s :
  visit_all (l1 ++ l2) s = visit_all l2 (visit_all l1 s).
Proof. apply foldl_app. Qed.

(** With enough fuel, the traversal is the callback applied along
    [preorder]. *)
Lemma traverse_from_visit_all fuel : forall r s,
  depth_ok fuel s r = true ->
  Three.traverse_from fuel clear_callback r s
  = Return tt (visit_all (preorder fuel s r) s).
Proof.
  induction fuel as [|fuel IH]; intros r s Hdepth; [done|].
  simpl in Hdepth. simpl Three.traverse_from. simpl preorder.
  erewrite run_bind_Return by apply clear_callback_visit.
  erewrite run_bind_Return by reflexivity.
  pose proof (reloads_visit r s) as R1.
  rewrite (reloads_children_of _ _ r R1).
  change (visit_all (r :: ?l) s) with (visit_all l (visit r s)).
  generalize dependent (visit r s). intros sa Ra.
  induction (Three.children_of s r) as [|c l IHl] in sa, Ra, Hdepth |- *;
    [done|].
  simpl in Hdepth. apply andb_true_iff in Hdepth as [Hc Hl].
  simpl Three.for_each. simpl flat_map. rewrite visit_all_app.
  rewrite <- (reloads_depth_ok _ _ _ _ Ra) in Hc.
  erewrite run_bind_Return by (by apply IH).
  rewrite (reloads_preorder_list _ _ _ _ Ra).
  apply IHl; [done|].
  etrans; [exact Ra|]. rewrite <- (reloads_preorder_list _ _ _ c Ra).
  apply reloads_visit_all.
Qed.

Lemma drop_cache_idemp o : drop_cache (drop_cache o) = drop_cache o.
Proof. unfold drop_cache. by destruct o as [? ? ? ? [] ?]. Qed.

Lemma visit_lookup r s x :
  heap (visit r s) !! x
  = if decide (x = r /\ r <> this s)
    then drop_cache <$> heap s !! x else heap s !! x.
Proof.
  assert (Hh : heap (visit r s)
               = if truthy_cache (childrenCache_of s r)
                 then alter (with_childrenCache CacheNull) r (heap s)
                 else heap s).
  { unfold visit. destruct (truthy_cache (childrenCache_of s r));
      by destruct (defines_loadTexture _ r). }
  rewrite Hh. unfold childrenCache_of.
  destruct (decide (r = this s)) as [Hr|Hr].
  { simpl. rewrite decide_False by tauto. done. }
  destruct (decide (x = r)) as [->|Hx].
  - rewrite decide_True by done.
    destruct (heap s !! r) as [o|] eqn:Ho; simpl.
    + unfold drop_cache. destruct (truthy_cache (childrenCache o)).
      * by rewrite lookup_alter_eq, Ho.
      * by rewrite Ho.
    + by rewrite Ho.
  - rewrite decide_False by tauto.
    destruct (heap s !! r) as [o|]; [|done].
    destruct (truthy_cache (childrenCache o)); [|done].
    by rewrite lookup_alter_ne.
Qed.

Lemma visit_all_lookup l : forall s x,
  heap (visit_all l s) !! x
  = if decide (x ∈ l /\ x <> this s)
    then drop_cache <$> heap s !! x else heap s !! x.
Proof.
  induction l as [|r l IH]; intros s x.
  { change (visit_all [] s) with s.
    rewrite decide_False; [done|]. intros [H _]. by apply elem_of_nil in H. }
  change (visit_all (r :: l) s) with (visit_all l (visit r s)).
  rewrite IH, visit_lookup, (reloads_this _ _ (reloads_visit r s)).
  repeat case_decide;
    repeat match goal with
           | H : context [_ ∈ _ :: _] |- _ => rewrite elem_of_cons in H
           end;
    try (exfalso; intuition congruence);
    destruct (heap s !! x); simpl; by rewrite ?drop_cache_idemp.
Qed.

Lemma visit_log r s :
  log (visit r s)
  = log s ++ texture_requests (provider (view s))
               (filter (fun x => defines_loadTexture s x = true) [r]).
Proof.
  pose proof (reloads_defines s) as Hdef.
  unfold visit.
  destruct (truthy_cache (childrenCache_of s r)) eqn:Hc.
  - destruct (reloads_drop r s Hc) as [R _].
    rewrite (Hdef _ r R).
    destruct (defines_loadTexture s r) eqn:Hd; simpl.
    + by rewrite filter_cons_True, filter_nil.
    + rewrite filter_cons_False by congruence. by rewrite filter_nil, app_nil_r.
  - destruct (defines_loadTexture s r) eqn:Hd; simpl.
    + by rewrite filter_cons_True, filter_nil.
    + rewrite filter_cons_False by congruence. by rewrite filter_nil, app_nil_r.
Qed.

Lemma filter_defines_ext s s' (l : list ref) :
  reloads s s' ->
  filter (fun x => defines_loadTexture s' x = true) l
  = filter (fun x => defines_loadTexture s x = true) l.
Proof.
  intros R. induction l as [|x l IH]; [done|].
  rewrite !filter_cons, IH, (reloads_defines _ _ x R). by repeat case_decide.
Qed.

Lemma visit_all_log l : forall s,
  log (visit_all l s)
  = log s ++ texture_requests (provider (view s))
               (filter (fun x => defines_loadTexture s x = true) l).
Proof.
  induction l as [|r l IH]; intros s.
  { change (visit_all [] s) with s. by rewrite filter_nil, app_nil_r. }
  change (visit_all (r :: l) s) with (visit_all l (visit r s)).
  pose proof (reloads_visit r s) as R.
  rewrite IH, visit_log, (reloads_view _ _ R), (filter_defines_ext _ _ _ R).
  rewrite <- app_assoc. f_equal. unfold texture_requests.
  rewrite <- map_app. f_equal.
  change (r :: l) with ([r] ++ l). by rewrite filter_app.
Qed.

(** X1: on a scene the fuel covers, [clear] makes exactly one
    [loadTexture] request per resident node, in depth-first order from the
    view down, every one to the view's current provider, and makes no
    other call. *)
Theorem clear_requests_each_resident_once fuel s :
  depth_ok fuel s (this s) = true ->
  exists s',
    clear fuel s = Return (VObject (this s)) s'
    /\ log s' = log s ++ texture_requests (provider (view s))
                           (resident_nodes fuel s).
Proof.
  intros Hdepth. exists (visit_all (preorder fuel s (this s)) s). split.
  - unfold clear, Three.traverse.
    rewrite run_bind_assoc. erewrite run_bind_Return by reflexivity.
    erewrite run_bind_Return by (by apply traverse_from_visit_all).
    erewrite run_bind_Return by reflexivity.
    by rewrite (reloads_this _ _ (reloads_visit_all _ s)).
  - apply visit_all_log.
Qed.

(** X2: on a scene the fuel covers, [clear] changes an object only if it
    is linked below the view, and then only by putting [null] in place of
    its children cache.  Objects that are not linked, such as the nodes
    kept in a children cache, are as they were. *)
Theorem clear_touches_only_the_tree fuel s :
  depth_ok fuel s (this s) = true ->
  exists s',
    clear fuel s = Return (VObject (this s)) s'
    /\ (forall r, r ∈ preorder fuel s (this s) -> r <> this s ->
          heap s' !! r = drop_cache <$> heap s !! r)
    /\ (forall r, r ∉ preorder fuel s (this s) -> heap s' !! r = heap s !! r)
    /\ (forall r, ~ in_tree s r -> heap s' !! r = heap s !! r).
Proof.
  intros Hdepth. exists (visit_all (preorder fuel s (this s)) s).
  assert (Hnot : forall r, r ∉ preorder fuel s (this s) ->
            heap (visit_all (preorder fuel s (this s)) s) !! r = heap s !! r).
  { intros r Hr. rewrite visit_all_lookup. by rewrite decide_False by tauto. }
  split; [|split; [|split]].
  - unfold clear, Three.traverse.
    rewrite run_bind_assoc. erewrite run_bind_Return by reflexivity.
    erewrite run_bind_Return by (by apply traverse_from_visit_all).
    erewrite run_bind_Return by reflexivity.
    by rewrite (reloads_this _ _ (reloads_visit_all _ s)).
  - intros r Hr Hne. rewrite visit_all_lookup. by rewrite decide_True.
  - exact Hnot.
  - intros r Hr. apply Hnot. intros Hin. apply Hr.
    by apply (preorder_reach fuel s (this s) r Hdepth).
Qed.

Lemma clear_requests_each_resident_once_witness :
  depth_ok 4 Sample.store12 (this Sample.store12) = true
  /\ exists s',
       clear 4 Sample.store12 = Return (VObject (this Sample.store12)) s'
       /\ log s' = log Sample.store12
                   ++ texture_requests (provider (view Sample.store12))
                        (resident_nodes 4 Sample.store12).
Proof.
  split; [reflexivity|].
  exact (clear_requests_each_resident_once 4 Sample.store12 eq_refl).
Defined.

Lemma clear_touches_only_the_tree_witness :
  depth_ok 4 Sample.store12 (this Sample.store12) = true
  /\ exists s',
       clear 4 Sample.store12 = Return (VObject (this Sample.store12)) s'
       /\ heap s' !! 30%positive = heap Sample.store12 !! 30%positive.
Proof.
  split; [reflexivity|].
  destruct (clear_touches_only_the_tree 4 Sample.store12 eq_refl)
    as (s' & E & _ & H & _).
  exists s'. split; [exact E|]. apply H.
  vm_compute. intros Hin.
  repeat (apply elem_of_cons in Hin as [Hin|Hin]; [discriminate Hin|]).
  by apply elem_of_nil in Hin.
Defined.

Lemma clear_closed_form fuel s :
  depth_ok fuel s (this s) = true ->
  clear fuel s
  = Return (VObject (this s)) (visit_all (preorder fuel s (this s)) s).
Proof.
  intros Hdepth. unfold clear, Three.traverse.
  rewrite run_bind_assoc. erewrite run_bind_Return by reflexivity.
  erewrite run_bind_Return by (by apply traverse_from_visit_all).
  erewrite run_bind_Return by reflexivity.
  by rewrite (reloads_this _ _ (reloads_visit_all _ s)).
Qed.

(** X3: [clear] twice in a row: the second run finds nothing left to
    drop, so it leaves every object and the view as the first run left
    them, but it makes the same round of [loadTexture] requests again. *)
Theorem clear_twice fuel s :
  depth_ok fuel s (this s) = true ->
  exists s1 s2,
    clear fuel s = Return (VObject (this s)) s1
    /\ clear fuel s1 = Return (VObject (this s)) s2
    /\ heap s2 = heap s1
    /\ view s2 = view s1
    /\ log s2 = log s1 ++ texture_requests (provider (view s))
                            (resident_nodes fuel s).
Proof.
  intros Hdepth.
  set (l := preorder fuel s (this s)).
  pose proof (reloads_visit_all l s) as R. fold l in R.
  assert (Hd1 : depth_ok fuel (visit_all l s) (this (visit_all l s)) = true).
  { by rewrite (reloads_this _ _ R), (reloads_depth_ok _ _ _ _ R). }
  assert (Hl1 : preorder fuel (visit_all l s) (this (visit_all l s)) = l).
  { by rewrite (reloads_this _ _ R), (reloads_preorder_list _ _ _ _ R). }
  exists (visit_all l s), (visit_all l (visit_all l s)).
  split; [by apply clear_closed_form|].
  split.
  { rewrite (clear_closed_form _ _ Hd1), Hl1. by rewrite (reloads_this _ _ R). }
  split; [|split].
  - apply map_eq. intros x. rewrite !visit_all_lookup, (reloads_this _ _ R).
    case_decide; [|done].
    destruct (heap s !! x); simpl; [|done]. by rewrite drop_cache_idemp.
  - rewrite (reloads_view _ _ (reloads_visit_all l (visit_all l s))). done.
  - rewrite visit_all_log, (reloads_view _ _ R), (filter_defines_ext _ _ _ R).
    done.
Qed.

Lemma clear_twice_witness :
  depth_ok 4 Sample.store12 (this Sample.store12) = true
  /\ exists s1 s2,
       clear 4 Sample.store12 = Return (VObject (this Sample.store12)) s1
       /\ clear 4 s1 = Return (VObject (this Sample.store12)) s2
       /\ heap s2 = heap s1.
Proof.
  split; [reflexivity|].
  destruct (clear_twice 4 Sample.store12 eq_refl) as (s1 & s2 & E1 & E2 & H & _).
  exists s1, s2. split; [exact E1|]. split; [exact E2|exact H].
Defined.

(** ** Where the texture requests go after a provider swap *)

Lemma set_view_resident_nodes f s fuel :
  view_children (f (view s)) = view_children (view s) ->
  resident_nodes fuel (set_view f s) = resident_nodes fuel s.
Proof.
  intros H. unfold resident_nodes. simpl. by rewrite set_view_preorder.
Qed.

Lemma texture_requests_provider p q l r :
  LoadTexture r q ∈ texture_requests p l -> q = p.
Proof.
  unfold texture_requests. intros Hin.
  apply list_elem_of_fmap in Hin as (x & [= _ ->] & _). done.
Qed.

(** X4: for a provider [p] other than the current one, on a scene the
    fuel covers, the calls [setProvider p] makes are exactly one
    [loadTexture] request per resident node, all of them to [p]: no
    request goes to the provider that was replaced.  The calls
    [setHeightProvider] makes for a new height provider are the same
    requests, to the colour provider in use. *)
Theorem setProvider_requests fuel s p :
  depth_ok fuel s (this s) = true ->
  (p <> provider (view s) ->
   exists s',
     setProvider fuel p s = Return tt s'
     /\ log s' = log s ++ texture_requests p (resident_nodes fuel s)
     /\ forall r, LoadTexture r (provider (view s))
                  ∉ texture_requests p (resident_nodes fuel s))
  /\ (p <> heightProvider (view s) ->
      exists s',
        setHeightProvider fuel p s = Return tt s'
        /\ log s' = log s ++ texture_requests (provider (view s))
                               (resident_nodes fuel s)).
Proof.
  intros Hdepth. split; intros Hp.
  - assert (Hd0 : depth_ok fuel (set_view (with_provider p) s)
                    (this (set_view (with_provider p) s)) = true).
    { simpl. by rewrite set_view_depth_ok. }
    eexists. split; [|split].
    + unfold setProvider. erewrite run_bind_Return by reflexivity.
      rewrite decide_True by done.
      erewrite run_bind_Return by reflexivity.
      erewrite run_bind_Return by (by apply clear_closed_form).
      reflexivity.
    + rewrite visit_all_log. simpl.
      change (filter _ (preorder fuel ?s0 (this s)))
        with (resident_nodes fuel s0).
      by rewrite set_view_resident_nodes.
    + intros r Hin. apply texture_requests_provider in Hin. congruence.
  - assert (Hd0 : depth_ok fuel (set_view (with_heightProvider p) s)
                    (this (set_view (with_heightProvider p) s)) = true).
    { simpl. by rewrite set_view_depth_ok. }
    eexists. split.
    + unfold setHeightProvider. erewrite run_bind_Return by reflexivity.
      rewrite decide_True by done.
      erewrite run_bind_Return by reflexivity.
      erewrite run_bind_Return by (by apply clear_closed_form).
      reflexivity.
    + rewrite visit_all_log. simpl.
      change (filter _ (preorder fuel ?s0 (this s)))
        with (resident_nodes fuel s0).
      by rewrite set_view_resident_nodes.
Qed.

Lemma setProvider_requests_witness :
  depth_ok 4 Sample.store12 (this Sample.store12) = true
  /\ VObject 6%positive <> provider (view Sample.store12)
  /\ exists s',
       setProvider 4 (VObject 6%positive) Sample.store12 = Return tt s'
       /\ log s' = log Sample.store12
                   ++ texture_requests (VObject 6%positive)
                        (resident_nodes 4 Sample.store12).
Proof.
  split; [reflexivity|]. split; [discriminate|].
  destruct (proj1 (setProvider_requests 4 Sample.store12 (VObject 6%positive)
                     eq_refl))
    as (s' & E & Hlog & _); [discriminate|].
  exists s'. split; [exact E|exact Hlog].
Defined.

(** ** Meta data *)




(** ** [setRoot] on arguments that are not numbers *)

(** What unlinking a child changes: nothing but [parent] and [children]
    links. *)
Lemma remove_from_frame p object s :
  this (Three.remove_from p object s) = this s
  /\ root (view (Three.remove_from p object s)) = root (view s)
  /\ geometry (view (Three.remove_from p object s)) = geometry (view s)
  /\ scale (view (Three.remove_from p object s)) = scale (view s)
  /\ log (Three.remove_from p object s) = log s
  /\ forall r,
       class <$> heap (Three.remove_from p object s) !! r
       = class <$> heap s !! r.
Proof.
  unfold Three.remove_from. destruct object; try done.
  case_decide as Hin; [|done].
  unfold Three.set_children_of, Three.set_parent_of.
  repeat case_decide; simpl; repeat split; try done;
    intros r0; rewrite ?field_alter; done.
Qed.

Lemma unlinked_frame s :
  geometry (view (unlinked s)) = geometry (view s)
  /\ scale (view (unlinked s)) = scale (view s)
  /\ log (unlinked s) = log s
  /\ view_children (view (unlinked s)) ⊆ view_children (view s)
  /\ (forall r, class <$> heap (unlinked s) !! r = class <$> heap s !! r)
  /\ (forall r, mapView <$> heap (unlinked s) !! r = mapView <$> heap s !! r).
Proof.
  unfold unlinked. case_decide; [done|]. simpl.
  destruct (remove_from_frame (this s) (root (view s)) s)
    as (_ & _ & Hg & Hs & Hl & Hc).
  repeat split; try done.
  - apply remove_from_view_children.
  - intros r. apply remove_from_mapView.
Qed.

Lemma constructor_of_set_view f v s :
  constructor_of v (set_view f s)
  = match constructor_of v s with
    | Return c _ => Return c (set_view f s)
    | Throw e _ => Throw e (set_view f s)
    | OutOfFuel => OutOfFuel
    end.
Proof.
  unfold constructor_of. destruct v; simpl; try done.
  case_decide; [done|]. by destruct (heap s !! r).
Qed.

(** [setRoot] on an argument that is not a number, statement by
    statement. *)
Lemma setRoot_nonnumber_run statics root0 s :
  (forall n, root0 <> VNumber n) ->
  setRoot statics root0 s
  = match constructor_of root0 (set_view (with_root root0) (unlinked s)) with
    | Return c s3 =>
        match static_BASE_SCALE statics c with
        | Some v =>
            match set_mapView root0 (VObject (this s))
                    (set_view (with_scale (mkVector3 (vx v) (vy v) (vz v)))
                       (set_view (with_geometry (static_BASE_GEOMETRY statics c))
                          s3)) with
            | Return _ s6 => Three.add root0 s6
            | Throw e s6 => Throw e s6
            | OutOfFuel => OutOfFuel
            end
        | None =>
            Throw TypeError
              (set_view (with_geometry (static_BASE_GEOMETRY statics c)) s3)
        end
    | Throw e s3 => Throw e s3
    | OutOfFuel => OutOfFuel
    end.
Proof.
  intros Hnum. unfold setRoot.
  assert (E0 : (match root0 with
                | VNumber n =>
                    if negb (JsMap.has mapModes n)
                    then throw (Error (not_registered n))
                    else
                      let rootConstructor := JsMap.get mapModes n in
                      s0 ← get;
                      c ← constructor_of root0;
                      new_ c [VNull; VNull; VNull; VObject (this s0);
                              ROOT statics; VNumber 0; VNumber 0; VNumber 0]
                | _ => mret root0
                end) s = Return root0 s).
  { destruct root0; try done. by destruct (Hnum n). }
  erewrite run_bind_Return by exact E0. clear E0.
  erewrite run_bind_Return by reflexivity.
  erewrite run_bind_Return by apply unlink_run.
  erewrite run_bind_Return by reflexivity.
  erewrite run_bind_Return by reflexivity.
  set (s3 := set_view (with_root root0) (unlinked s)).
  change (root (view s3)) with root0.
  destruct (constructor_of root0 s3) as [c s3'|e s3'|] eqn:Ec;
    [|by erewrite run_bind_Throw by exact Ec|].
  2:{ unfold mbind, M_bind. by rewrite Ec. }
  assert (s3' = s3) as ->.
  { unfold constructor_of in Ec. destruct root0; simplify_eq; try done.
    repeat case_match; by simplify_eq. }
  erewrite run_bind_Return by exact Ec.
  erewrite run_bind_Return by reflexivity.
  erewrite run_bind_Return by reflexivity.
  set (s4 := set_view (with_geometry _) s3).
  change (root (view s4)) with root0.
  assert (Ec4 : constructor_of root0 s4 = Return c s4).
  { subst s4. by rewrite constructor_of_set_view, Ec. }
  erewrite run_bind_Return by exact Ec4.
  destruct (static_BASE_SCALE statics c) as [v|]; [|done].
  erewrite run_bind_Return by reflexivity.
  erewrite run_bind_Return by reflexivity.
  set (s5 := set_view (with_scale _) s4).
  change (root (view s5)) with root0.
  change (this s5) with (this (unlinked s)). rewrite unlinked_this.
  destruct (set_mapView root0 (VObject (this s)) s5) as [[] s6|e s6|] eqn:Em.
  - erewrite run_bind_Return by exact Em.
    erewrite run_bind_Return by reflexivity.
    assert (root (view s6) = root0) as ->; [|done].
    unfold set_mapView in Em. destruct root0; simplify_eq.
    by case_decide; simplify_eq.
  - by erewrite run_bind_Throw by exact Em.
  - unfold mbind, M_bind. by rewrite Em.
Qed.

(** [add] on a scene object other than the view. *)
Lemma add_run r s o :
  r <> this s -> heap s !! r = Some o -> isObject3D (class o) = true ->
  Three.add (VObject r) s
  = match parent o with
    | VNull => Return tt (attach r s)
    | VObject p => Return tt (attach r (Three.remove_from p (VObject r) s))
    | _ => Throw TypeError s
    end.
Proof.
  intros Hne Ho Hc. unfold Three.add, attach.
  erewrite run_bind_Return by reflexivity.
  rewrite decide_False by done. rewrite Ho, Hc.
  destruct (parent o) as [| | |p] eqn:Hp;
    try (by erewrite run_bind_Throw by reflexivity).
  - erewrite run_bind_Return by reflexivity.
    erewrite run_bind_Return by reflexivity.
    unfold modify, Three.set_parent_of. simpl. by rewrite decide_False.
  - erewrite run_bind_Return by reflexivity.
    erewrite run_bind_Return by reflexivity.
    unfold modify, Three.set_parent_of.
    destruct (remove_from_frame p (VObject r) s) as (Ht & _).
    rewrite decide_False by congruence. done.
Qed.

Lemma attach_lookup r s c w :
  class <$> heap s !! r = Some c ->
  mapView <$> heap s !! r = Some w ->
  parent <$> heap (attach r s) !! r = Some (VObject (this s))
  /\ mapView <$> heap (attach r s) !! r = Some w
  /\ class <$> heap (attach r s) !! r = Some c.
Proof.
  intros Hc Hw. unfold attach. simpl.
  rewrite (field_alter mapView), (field_alter class) by done. split; [|done].
  rewrite lookup_alter_eq. by destruct (heap s !! r).
Qed.

(** What can be said whenever [setRoot] returns. *)
Lemma setRoot_Return_inv statics root0 s s' :
  setRoot statics root0 s = Return tt s' ->
  exists r k v,
    root0 = VObject r /\ r <> this s
    /\ class <$> heap s !! r = Some (NodeClass k)
    /\ BASE_SCALE statics k = Some v
    /\ root (view s') = VObject r
    /\ geometry (view s') = BASE_GEOMETRY statics k
    /\ scale (view s') = v
    /\ (exists l, view_children (view s') = l ++ [r]
                  /\ l ⊆ view_children (view s))
    /\ parent <$> heap s' !! r = Some (VObject (this s))
    /\ mapView <$> heap s' !! r = Some (VObject (this s)).
Proof.
  intros H. destruct root0 as [| |n|r].
  - rewrite setRoot_nonnumber_run in H by done. discriminate H.
  - rewrite setRoot_nonnumber_run in H by done. discriminate H.
  - destruct (JsMap.has mapModes n) eqn:Hm.
    + destruct (setRoot_registered_run statics n s Hm) as (r & _ & _ & _ & E).
      rewrite E in H. discriminate H.
    + unfold setRoot in H. erewrite run_bind_Throw in H; [discriminate H|].
      by rewrite Hm.
  - rewrite setRoot_nonnumber_run in H by done.
    destruct (unlinked_frame s) as (Hg & Hsc & _ & Hch & Hcl & Hmv).
    unfold constructor_of in H. simpl in H. rewrite unlinked_this in H.
    destruct (decide (r = this s)) as [Hr|Hr]; [discriminate H|].
    destruct (heap (unlinked s) !! r) as [o|] eqn:Ho; [|discriminate H].
    destruct (class o) as [k| | | | | | | |] eqn:Hc; try discriminate H.
    simpl in H. destruct (BASE_SCALE statics k) as [v|] eqn:Hv;
      [|discriminate H].
    unfold set_mapView in H. simpl in H. rewrite unlinked_this in H.
    rewrite decide_False in H by done.
    match type of H with Three.add _ ?s0 = _ => set (s6 := s0) in * end.
    assert (Hclass : class <$> heap s !! r = Some (NodeClass k)).
    { rewrite <- Hcl, Ho. simpl. by rewrite Hc. }
    assert (Ho6 : heap s6 !! r = Some (with_mapView (VObject (this s)) o)).
    { subst s6. simpl. by rewrite lookup_alter_eq, Ho. }
    assert (Ht6 : this s6 = this s) by apply unlinked_this.
    rewrite (add_run r s6 _ (eq_ind_r (fun t => r <> t) Hr Ht6) Ho6) in H
      by (simpl; by rewrite Hc).
    assert (exists s7, s' = attach r s7
              /\ this s7 = this s
              /\ root (view s7) = VObject r
              /\ geometry (view s7) = BASE_GEOMETRY statics k
              /\ scale (view s7) = v
              /\ view_children (view s7) ⊆ view_children (view s)
              /\ class <$> heap s7 !! r = Some (NodeClass k)
              /\ mapView <$> heap s7 !! r = Some (VObject (this s)))
      as (s7 & -> & Ht7 & Hr7 & Hg7 & Hs7 & Hch7 & Hc7 & Hm7).
    { assert (Hs6 : scale (view s6) = v) by (subst s6; simpl; by destruct v).
      assert (Hc6 : class <$> heap s6 !! r = Some (NodeClass k))
        by (rewrite Ho6; simpl; by rewrite Hc).
      assert (Hm6 : mapView <$> heap s6 !! r = Some (VObject (this s)))
        by (by rewrite Ho6).
      simpl in H. destruct (parent o) as [| | |p]; try discriminate H.
      - exists s6. injection H as <-. by repeat split.
      - exists (Three.remove_from p (VObject r) s6). injection H as <-.
        destruct (remove_from_frame p (VObject r) s6)
          as (Ht & Hro & Hge & Hsca & _ & Hcla).
        split; [done|]. split; [congruence|]. split; [by rewrite Hro|].
        split; [by rewrite Hge|]. split; [by rewrite Hsca|].
        split; [|split].
        + etrans; [apply remove_from_view_children|done].
        + by rewrite Hcla.
        + by rewrite remove_from_mapView. }
    exists r, k, v. split; [done|]. split; [done|]. split; [done|].
    split; [done|]. split; [done|]. split; [done|]. split; [done|].
    split; [by exists (view_children (view s7))|].
    destruct (attach_lookup r s7 _ _ Hc7 Hm7) as (Hp & Hm & _).
    rewrite Ht7 in Hp. by split.
Qed.

(** X6: [setRoot] returns only for a scene node: whenever it returns, its
    argument was an object other than the view, of a node class that
    defines [BASE_SCALE].  The view then has that object as root and as
    last child, behind children it already had, its geometry and scale are
    the statics of the object's class, and the object points back to the
    view through [parent] and [mapView].  For a number, for [null] and
    for [undefined], [setRoot] never returns. *)
Theorem setRoot_returns_only_for_nodes statics root0 s s' :
  setRoot statics root0 s = Return tt s' ->
  (exists r k v,
     root0 = VObject r /\ r <> this s
     /\ class <$> heap s !! r = Some (NodeClass k)
     /\ BASE_SCALE statics k = Some v
     /\ root (view s') = VObject r
     /\ geometry (view s') = BASE_GEOMETRY statics k
     /\ scale (view s') = v
     /\ (exists l, view_children (view s') = l ++ [r]
                   /\ l ⊆ view_children (view s))
     /\ parent <$> heap s' !! r = Some (VObject (this s))
     /\ mapView <$> heap s' !! r = Some (VObject (this s)))
  /\ root0 <> VNull /\ root0 <> VUndefined /\ (forall n, root0 <> VNumber n).
Proof.
  intros H. pose proof (setRoot_Return_inv _ _ _ _ H) as Hinv.
  split; [exact Hinv|].
  destruct Hinv as (r & _ & _ & -> & _). by repeat split.
Qed.

Lemma setRoot_returns_only_for_nodes_witness :
  exists s',
    setRoot Sample.statics (VObject 10%positive) Sample.empty_store
    = Return tt s'
    /\ mapView <$> heap s' !! 10%positive
       = Some (VObject (this Sample.empty_store)).
Proof.
  eexists. split; [vm_compute; reflexivity|].
  destruct (proj1 (setRoot_returns_only_for_nodes Sample.statics
                     (VObject 10%positive) Sample.empty_store _
                     ltac:(vm_compute; reflexivity)))
    as (r & k & v & [= <-] & _ & _ & _ & _ & _ & _ & _ & _ & Hm).
  exact Hm.
Defined.





(** ** The constructor, argument by argument *)

Lemma subseteq_nil_eq (l : list ref) : l ⊆ [] -> l = [].
Proof.
  destruct l as [|x l]; [done|]. intros H.
  specialize (H x (list_elem_of_here x l)). by apply elem_of_nil in H.
Qed.

(** X8: with no root argument the constructor never builds a view, for
    any providers: the default [PLANAR] is stored in the root field but
    [setRoot] is called with [undefined] and throws a [TypeError],
    leaving the root field [undefined] and the view without children. *)
Theorem constructor_without_root_throws statics provider0 heightProvider0 s :
  exists s',
    constructor statics VUndefined provider0 heightProvider0 s
    = Throw TypeError s'
    /\ root (view s') = VUndefined
    /\ view_children (view s') = [].
Proof.
  destruct (constructor_prefix statics VUndefined provider0 heightProvider0 s)
    as (s1 & -> & C).
  rewrite setRoot_nonnumber_run by done. simpl.
  eexists. split; [reflexivity|]. split; [done|]. simpl.
  apply subseteq_nil_eq. rewrite <- (constructed_children _ _ _ _ _ C).
  apply unlinked_frame.
Qed.

(** X9: the constructor returns only when the root argument is a scene
    node whose class defines [BASE_SCALE]; for a mode id, registered or
    not, and for [null] it throws like [setRoot].  When it returns, the
    node is the root and the only child of the view, it points back to
    the view, and the view's geometry and scale are the statics of the
    node's class. *)
Theorem constructor_returns_only_for_nodes
    statics root0 provider0 heightProvider0 s s' :
  constructor statics root0 provider0 heightProvider0 s = Return tt s' ->
  exists r k v,
    root0 = VObject r /\ r <> this s
    /\ BASE_SCALE statics k = Some v
    /\ class <$> heap s' !! r = Some (NodeClass k)
    /\ root (view s') = VObject r
    /\ view_children (view s') = [r]
    /\ geometry (view s') = BASE_GEOMETRY statics k
    /\ scale (view s') = v
    /\ parent <$> heap s' !! r = Some (VObject (this s))
    /\ mapView <$> heap s' !! r = Some (VObject (this s)).
Proof.
  intros H.
  destruct (constructor_prefix statics root0 provider0 heightProvider0 s)
    as (s1 & E & C).
  rewrite E in H.
  destruct (setRoot_Return_inv _ _ _ _ H)
    as (r & k & v & -> & Hne & Hc & Hv & Hr & Hg & Hs & (l & Hl & Hsub) & Hp & Hm).
  pose proof (stable_setRoot_keeps statics (VObject r) s1 s'
                ltac:(by rewrite H)) as K.
  rewrite (constructed_this _ _ _ _ _ C) in *.
  rewrite (constructed_children _ _ _ _ _ C) in Hsub.
  apply subseteq_nil_eq in Hsub. subst l.
  exists r, k, v. repeat (split; [done|]).
  split; [by apply (keeps_class _ _ K)|]. by repeat split.
Qed.

Lemma constructor_returns_only_for_nodes_witness :
  constructor Sample.statics (VObject 10%positive) VUndefined VUndefined
    Sample.empty_store = Return tt Sample.constructed_store
  /\ view_children (view Sample.constructed_store) = [10%positive].
Proof.
  split; [vm_compute; reflexivity|].
  destruct (constructor_returns_only_for_nodes Sample.statics
              (VObject 10%positive) VUndefined VUndefined Sample.empty_store
              Sample.constructed_store ltac:(vm_compute; reflexivity))
    as (r & k & v & [= <-] & _ & _ & _ & _ & Hch & _).
  exact Hch.
Defined.



(** ** What [setRoot] does to the previous root *)

Lemma unlinked_old_root s r0 :
  root (view s) = VObject r0 ->
  r0 ∈ view_children (view s) ->
  r0 <> this s ->
  unlinked s
  = mkState (this s)
      (with_root VNull
         (with_view_children (Three.splice_first r0 (view_children (view s)))
            (view s)))
      (alter (with_parent VNull) r0 (heap s))
      (log s).
Proof.
  intros Hr Hin Hne. unfold unlinked. rewrite Hr.
  rewrite decide_False by done.
  unfold Three.remove_from, Three.children_of.
  rewrite (decide_True (P := this s = this s)) by done.
  rewrite decide_True by done.
  unfold Three.set_parent_of.
  rewrite (decide_False (P := r0 = this s)) by done.
  unfold Three.set_children_of. simpl.
  by rewrite !(decide_True (P := this s = this s)) by done.
Qed.

(** X11: [setRoot] with [null] or [undefined] fails half way.  It throws
    a [TypeError], but only after it has detached the previous root: the
    root field holds the argument, the previous root is no longer a child
    of the view and its [parent] is [null]; nothing else has changed. *)
Theorem setRoot_without_node_detaches_root statics root0 s r0 :
  root0 = VNull \/ root0 = VUndefined ->
  root (view s) = VObject r0 ->
  r0 ∈ view_children (view s) ->
  r0 <> this s ->
  exists s',
    setRoot statics root0 s = Throw TypeError s'
    /\ view s' = with_root root0
                   (with_view_children
                      (Three.splice_first r0 (view_children (view s)))
                      (view s))
    /\ heap s' = alter (with_parent VNull) r0 (heap s)
    /\ log s' = log s
    /\ (NoDup (view_children (view s)) -> r0 ∉ view_children (view s')).
Proof.
  intros H0 Hr Hin Hne.
  exists (set_view (with_root root0) (unlinked s)). split.
  { rewrite setRoot_nonnumber_run by (by destruct H0 as [-> | ->]).
    by destruct H0 as [-> | ->]. }
  rewrite (unlinked_old_root s r0 Hr Hin Hne). simpl.
  repeat split; try done. by apply splice_first_NoDup.
Qed.

Lemma setRoot_without_node_detaches_root_witness :
  exists s',
    setRoot Sample.statics VNull Sample.store12 = Throw TypeError s'
    /\ view_children (view s') = []
    /\ parent <$> heap s' !! 10%positive = Some VNull.
Proof.
  destruct (setRoot_without_node_detaches_root Sample.statics VNull
              Sample.store12 10%positive)
    as (s' & E & Hv & Hh & _); try reflexivity;
    [by left|by apply list_elem_of_singleton|discriminate|].
  exists s'. split; [exact E|]. rewrite Hv, Hh. split; reflexivity.
Defined.

(** [setRoot] on a node that is linked nowhere, in closed form. *)
Lemma setRoot_unlinked_node_run statics s r o k v :
  r <> this s ->
  heap (unlinked s) !! r = Some o ->
  class o = NodeClass k ->
  parent o = VNull ->
  BASE_SCALE statics k = Some v ->
  setRoot statics (VObject r) s
  = Return tt
      (attach r
         (set_heap (alter (with_mapView (VObject (this s))) r)
            (set_view (with_scale v)
               (set_view (with_geometry (BASE_GEOMETRY statics k))
                  (set_view (with_root (VObject r)) (unlinked s)))))).
Proof.
  intros Hne Ho Hc Hp Hv.
  rewrite setRoot_nonnumber_run by done.
  unfold constructor_of. simpl. rewrite unlinked_this.
  rewrite decide_False by done. rewrite Ho, Hc. simpl. rewrite Hv.
  unfold set_mapView. simpl. rewrite unlinked_this.
  rewrite decide_False by done.
  erewrite add_run.
  - instantiate (1 := with_mapView (VObject (this s)) o). simpl.
    rewrite Hp. by destruct v.
  - simpl. by rewrite unlinked_this.
  - simpl. by rewrite lookup_alter_eq, Ho.
  - simpl. by rewrite Hc.
Qed.

(** X12: replacing the root.  When the view's root [r0] is one of its
    children and [setRoot] is given another node [r] that is linked
    nowhere, the call returns with [r] appended to the children and [r0]
    taken out of them.  The old root is not destroyed: it stays in the
    store with all its properties, [mapView] included, except that its
    [parent] is [null]. *)
Theorem setRoot_replaces_root statics s r0 r o k v :
  root (view s) = VObject r0 ->
  r0 ∈ view_children (view s) ->
  r0 <> this s ->
  r <> r0 ->
  r <> this s ->
  heap s !! r = Some o ->
  class o = NodeClass k ->
  parent o = VNull ->
  BASE_SCALE statics k = Some v ->
  exists s',
    setRoot statics (VObject r) s = Return tt s'
    /\ root (view s') = VObject r
    /\ view_children (view s')
       = Three.splice_first r0 (view_children (view s)) ++ [r]
    /\ heap s' !! r0 = with_parent VNull <$> heap s !! r0
    /\ heap s' !! r
       = Some (with_parent (VObject (this s))
                 (with_mapView (VObject (this s)) o)).
Proof.
  intros Hr Hin Hne0 Hrr Hne Ho Hc Hp Hv.
  pose proof (unlinked_old_root s r0 Hr Hin Hne0) as Hu.
  assert (Ho2 : heap (unlinked s) !! r = Some o).
  { rewrite Hu. simpl. by rewrite lookup_alter_ne. }
  eexists. split; [by apply (setRoot_unlinked_node_run statics s r o k v)|].
  unfold attach. simpl. rewrite Hu. simpl.
  split; [done|]. split; [done|]. split.
  - rewrite !lookup_alter_ne by done. by rewrite lookup_alter_eq.
  - rewrite !lookup_alter_eq. rewrite lookup_alter_ne by done. by rewrite Ho.
Qed.

Lemma setRoot_replaces_root_witness :
  exists s',
    setRoot Sample.statics (VObject 30%positive) Sample.store12 = Return tt s'
    /\ view_children (view s') = [30%positive]
    /\ parent <$> heap s' !! 10%positive = Some VNull.
Proof.
  destruct (setRoot_replaces_root Sample.statics Sample.store12 10%positive
              30%positive (Sample.node VNull [] CacheNull) MapPlaneNode
              (mkVector3 40075016 1 40075016))
    as (s' & E & _ & Hch & Hh & _); try reflexivity;
    [by apply list_elem_of_singleton|discriminate..|].
  exists s'. split; [exact E|]. split; [exact Hch|].
  etrans; [exact (f_equal (fmap parent) Hh)|reflexivity].
Defined.

(** ** What [setRoot] never does *)

Lemma remove_from_log p object s : log (Three.remove_from p object s) = log s.
Proof. apply remove_from_frame. Qed.

Lemma setRoot_log statics root0 s s' :
  final (setRoot statics root0 s) = Some s' -> log s' = log s.
Proof.
  intros H.
  destruct (unlinked_frame s) as (_ & _ & Hlog & _).
  destruct root0 as [| |n|r].
  - rewrite setRoot_nonnumber_run in H by done. by injection H as <-.
  - rewrite setRoot_nonnumber_run in H by done. by injection H as <-.
  - destruct (JsMap.has mapModes n) eqn:Hm.
    + destruct (setRoot_registered_run statics n s Hm) as (r & _ & _ & _ & E).
      rewrite E in H. injection H as <-. simpl.
      case_decide; simpl; [done|]. by rewrite remove_from_log.
    + unfold setRoot in H. erewrite run_bind_Throw in H by (by rewrite Hm).
      by injection H as <-.
  - rewrite setRoot_nonnumber_run in H by done.
    unfold constructor_of in H. simpl in H. rewrite unlinked_this in H.
    destruct (decide (r = this s)) as [Hr|Hr]; [by injection H as <-|].
    destruct (heap (unlinked s) !! r) as [o|] eqn:Ho; [|by injection H as <-].
    destruct (static_BASE_SCALE statics (class o)) as [v|] eqn:Hsc;
      [|by injection H as <-].
    assert (Hc : isObject3D (class o) = true).
    { by destruct (class o). }
    unfold set_mapView in H. simpl in H. rewrite unlinked_this in H.
    rewrite decide_False in H by done.
    erewrite add_run in H.
    + instantiate (1 := with_mapView (VObject (this s)) o) in H.
      cbn [parent with_mapView] in H.
      destruct (parent o); cbn [final] in H; apply (inj Some) in H;
        subst s'; try change (log (attach r ?x)) with (log x);
        rewrite ?remove_from_log; exact Hlog.
    + simpl. by rewrite unlinked_this.
    + simpl. by rewrite lookup_alter_eq, Ho.
    + done.
Qed.

(** X13: however [setRoot] ends, by returning or by throwing, and
    whatever its argument, it makes no call that leaves the view: no
    texture request, no LOD update, no meta data request.  It leaves the
    LOD control, the two providers and the material of the view as they
    were, and no object of the store disappears or changes class. *)
Theorem setRoot_makes_no_call statics root0 s s' :
  final (setRoot statics root0 s) = Some s' ->
  log s' = log s
  /\ this s' = this s
  /\ lod (view s') = lod (view s)
  /\ provider (view s') = provider (view s)
  /\ heightProvider (view s') = heightProvider (view s)
  /\ material (view s') = material (view s)
  /\ (forall r c, class <$> heap s !! r = Some c ->
                  class <$> heap s' !! r = Some c).
Proof.
  intros H. split; [by apply (setRoot_log statics root0)|].
  destruct (stable_setRoot_keeps statics root0 s s' H). by repeat split.
Qed.

Lemma setRoot_makes_no_call_witness :
  exists s',
    final (setRoot Sample.statics (VNumber PLANAR) Sample.store12) = Some s'
    /\ log s' = log Sample.store12
    /\ provider (view s') = provider (view Sample.store12).
Proof.
  eexists. split; [vm_compute; reflexivity|].
  destruct (setRoot_makes_no_call Sample.statics (VNumber PLANAR)
              Sample.store12 _ ltac:(vm_compute; reflexivity))
    as (Hl & _ & _ & Hp & _).
  split; [exact Hl|exact Hp].
Defined.

(** ** Methods one after the other *)




Lemma reach_view_child s r : r ∈ view_children (view s) -> in_tree s r.
Proof.
  intros Hin. eapply reach_child; [constructor|].
  unfold Three.children_of. by rewrite decide_True.
Qed.

(** X15: a root set by [setRoot] takes part in the next provider swap.
    After [setRoot] has returned for a node [r], on a scene the fuel
    covers, [setProvider p] for a provider [p] other than the current one
    returns, [r] is among the resident nodes and its texture is requested
    from [p]. *)
Theorem setProvider_reloads_new_root statics fuel r p s s1 :
  setRoot statics (VObject r) s = Return tt s1 ->
  depth_ok fuel s1 (this s1) = true ->
  p <> provider (view s1) ->
  exists s2,
    setProvider fuel p s1 = Return tt s2
    /\ root (view s2) = VObject r
    /\ r ∈ resident_nodes fuel s2
    /\ exists evs, log s2 = log s1 ++ evs /\ LoadTexture r p ∈ evs.
Proof.
  intros H Hdepth Hp.
  destruct (setRoot_Return_inv _ _ _ _ H)
    as (r' & k & v & [= <-] & Hne & Hc & _ & Hr & _ & _ & (l & Hl & _) & _ & _).
  pose proof (stable_setRoot_keeps statics (VObject r) s s1
                ltac:(by rewrite H)) as K.
  assert (Hin : in_tree s1 r).
  { apply reach_view_child. rewrite Hl, elem_of_app, list_elem_of_singleton.
    by right. }
  assert (Hdef : defines_loadTexture s1 r = true).
  { unfold defines_loadTexture. rewrite (keeps_this _ _ K).
    rewrite decide_False by done.
    pose proof (keeps_class _ _ K r _ Hc) as Hc1.
    destruct (heap s1 !! r) as [o1|]; simplify_eq/=. by rewrite Hc1. }
  destruct (swap_then_clear fuel (with_provider p) s1 eq_refl eq_refl Hdepth)
    as (s2 & E & _ & Hv & _ & _ & _ & Hres & _ & Hlog).
  exists s2. split.
  { unfold setProvider. erewrite run_bind_Return by reflexivity.
    by rewrite decide_True. }
  split; [by rewrite Hv|]. split; [|by apply Hlog].
  rewrite Hres. unfold resident_nodes.
  apply list_elem_of_filter. split; [done|].
  by apply (preorder_reach fuel s1 (this s1) r Hdepth).
Qed.

Lemma setProvider_reloads_new_root_witness :
  exists s1 s2,
    setRoot Sample.statics (VObject 10%positive) Sample.empty_store
    = Return tt s1
    /\ setProvider 2 (VObject 6%positive) s1 = Return tt s2
    /\ (10%positive ∈ resident_nodes 2 s2).
Proof.
  eexists.
  destruct (setProvider_reloads_new_root Sample.statics 2 10%positive
              (VObject 6%positive) Sample.empty_store _
              ltac:(vm_compute; reflexivity))
    as (s2 & E & _ & Hres & _); [vm_compute; reflexivity|discriminate|].
  exists s2. split; [vm_compute; reflexivity|]. split; [exact E|exact Hres].
Defined.
